(** * Karn.ai Card IR Generator: a shallow embedding and its properties

    This development embeds [services/card-ir-generator/card_ir_generator.py]
    (classes [AbilityParser], [StrategicTagger] and [CardIRGenerator]) and
    proves properties of the text-to-structure pipeline.

    Modelling conventions.
    - A Python [str] is a [string]; the embedding covers ASCII text, on which
      [str.lower] maps [A-Z] to [a-z] and leaves every other character alone,
      [\d] is [0-9], [\w] is [[A-Za-z0-9_]].
    - A JSON object read with [dict.get(key, default)] is a record whose
      fields are options ([None]: the key is absent).
    - A JSON number is a [pynum]: a rational, or one of the three special
      floats that [json.load] accepts.
    - The patterns handed to [re.search] and [re.findall] are abstract syntax
      trees of a small backtracking matcher ([Module Re]) that lists the ways
      a pattern can match at a position in the order Python tries them.
    - A Python [set] of strings is its sequence of distinct insertions; the
      order in which [list(a_set)] enumerates it belongs to the interpreter
      process (string hashing is seeded per process) and is a field of
      [PyRuntime]. *)

From Stdlib Require Import Bool Arith Lia List ZArith QArith Ascii String Permutation Sorted.
Import ListNotations.

Close Scope Q_scope.
Open Scope nat_scope.
Open Scope list_scope.
Open Scope string_scope.

(** ** Python strings *)

Module PyStr.

Definition is_upper (c : ascii) : bool :=
  let n := nat_of_ascii c in Nat.leb 65 n && Nat.leb n 90.

Definition is_lower (c : ascii) : bool :=
  let n := nat_of_ascii c in Nat.leb 97 n && Nat.leb n 122.

Definition is_digit (c : ascii) : bool :=
  let n := nat_of_ascii c in Nat.leb 48 n && Nat.leb n 57.

(** [\w] *)
Definition is_word (c : ascii) : bool :=
  is_upper c || is_lower c || is_digit c || Ascii.eqb c "_".

(** the characters [str.strip()] removes *)
Definition is_space (c : ascii) : bool :=
  let n := nat_of_ascii c in
  (Nat.leb 9 n && Nat.leb n 13) || (Nat.leb 28 n && Nat.leb n 32).

Definition lower_char (c : ascii) : ascii :=
  if is_upper c then ascii_of_nat (nat_of_ascii c + 32) else c.

(** [s.lower()] *)
Fixpoint lower (s : string) : string :=
  match s with
  | "" => ""
  | String c s' => String (lower_char c) (lower s')
  end.

(** [s.replace(old, new)] for one-character [old] and [new] *)
Fixpoint replace_char (old new : ascii) (s : string) : string :=
  match s with
  | "" => ""
  | String c s' =>
      String (if Ascii.eqb c old then new else c) (replace_char old new s')
  end.

(** [s[:n]] *)
Fixpoint take (n : nat) (s : string) : string :=
  match n, s with
  | S k, String c s' => String c (take k s')
  | _, _ => ""
  end.

(** [s[n:]] *)
Fixpoint drop (n : nat) (s : string) : string :=
  match n, s with
  | S k, String _ s' => drop k s'
  | _, _ => s
  end.

(** [sub in s] *)
Fixpoint contains (sub s : string) : bool :=
  prefix sub s ||
  match s with
  | "" => false
  | String _ s' => contains sub s'
  end.

Fixpoint lstrip (s : string) : string :=
  match s with
  | "" => ""
  | String c s' => if is_space c then lstrip s' else s
  end.

Fixpoint rstrip (s : string) : string :=
  match s with
  | "" => ""
  | String c s' =>
      match rstrip s' with
      | "" => if is_space c then "" else String c ""
      | r => String c r
      end
  end.

(** [s.strip()] *)
Definition strip (s : string) : string := rstrip (lstrip s).

Fixpoint forall_chars (p : ascii -> bool) (s : string) : bool :=
  match s with
  | "" => true
  | String c s' => p c && forall_chars p s'
  end.

Definition digit_value (c : ascii) : Z := (Z.of_nat (nat_of_ascii c) - 48)%Z.

Fixpoint int_digits (acc : Z) (s : string) : Z :=
  match s with
  | "" => acc
  | String c s' => int_digits (10 * acc + digit_value c)%Z s'
  end.

(** [int(s)] on a string of decimal digits *)
Definition int_of (s : string) : Z := int_digits 0%Z s.

(** [sub] occurs in [s]: the declarative reading of [sub in s] *)
Definition Occurs (sub s : string) : Prop :=
  exists a b, s = a ++ sub ++ b.

(** some member of [xs] occurs in [s]: [any(x in s for x in xs)] *)
Definition AnyOccurs (xs : list string) (s : string) : Prop :=
  exists x, In x xs /\ Occurs x s.

(** [sub] occurs in [s] at offset [i] *)
Definition OccursAt (sub s : string) (i : nat) : Prop :=
  exists a b, s = a ++ sub ++ b /\ length a = i.

End PyStr.

(** ** The fragment of Python's [re] that the generator uses *)

Module Re.
Import PyStr.

(** Pattern syntax.  Repetition is only ever applied to a character class in
    the source's patterns, so that is what the syntax offers. *)
Inductive regex : Type :=
| Chr (p : ascii -> bool)        (* one character of a class *)
| Cat (r1 r2 : regex)            (* r1r2 *)
| Alt (r1 r2 : regex)            (* r1|r2, r1 tried first *)
| StarG (p : ascii -> bool)      (* c*, greedy *)
| PlusG (p : ascii -> bool)      (* c+, greedy *)
| PlusL (p : ascii -> bool)      (* c+?, lazy *)
| WordB                          (* \b *)
| Eos                            (* $ without re.MULTILINE *)
| Grp (r : regex)                (* ( r ), capturing *)
| Eps.                           (* the empty pattern *)

(** a literal character; under [(?i)] it matches both cases *)
Definition chr (c : ascii) : regex := Chr (Ascii.eqb c).
Definition chr_i (c : ascii) : regex :=
  Chr (fun x => Ascii.eqb (lower_char x) (lower_char c)).

(** a literal string *)
Fixpoint lit (w : string) : regex :=
  match w with
  | "" => Eps
  | String c w' => Cat (chr c) (lit w')
  end.

Fixpoint lit_i (w : string) : regex :=
  match w with
  | "" => Eps
  | String c w' => Cat (chr_i c) (lit_i w')
  end.

(** [.] : any character but a newline *)
Definition dot (c : ascii) : bool := negb (Ascii.eqb c "010").

(** the length of the longest prefix of [s] made of characters of [p] *)
Fixpoint run (p : ascii -> bool) (s : string) : nat :=
  match s with
  | "" => 0
  | String c s' => if p c then S (run p s') else 0
  end.

(** [n; n-1; ...; 0] *)
Fixpoint down_to_zero (n : nat) : list nat :=
  match n with
  | 0 => [0]
  | S k => n :: down_to_zero k
  end.

(** [n; n-1; ...; 1] *)
Fixpoint down_to_one (n : nat) : list nat :=
  match n with
  | 0 => []
  | S k => n :: down_to_one k
  end.

(** the character before the cursor once [n] characters of [rest] are taken *)
Definition prev_after (prev : option ascii) (rest : string) (n : nat)
  : option ascii :=
  match n with
  | 0 => prev
  | S k => match get k rest with Some c => Some c | None => prev end
  end.

Definition word_opt (c : option ascii) : bool :=
  match c with Some x => is_word x | None => false end.

Definition head_char (s : string) : option ascii :=
  match s with "" => None | String c _ => Some c end.

(** [ends r prev rest]: every way [r] matches at a cursor that has the
    character [prev] behind it and the text [rest] ahead, as the number of
    characters consumed and the groups captured, in the order in which a
    backtracking matcher tries them. *)
Fixpoint ends (r : regex) (prev : option ascii) (rest : string)
  : list (nat * list string) :=
  match r with
  | Chr p =>
      match rest with
      | String c _ => if p c then [(1, [])] else []
      | "" => []
      end
  | Cat r1 r2 =>
      flat_map
        (fun e1 =>
           map (fun e2 => (fst e1 + fst e2, (snd e1 ++ snd e2)%list))
               (ends r2 (prev_after prev rest (fst e1)) (drop (fst e1) rest)))
        (ends r1 prev rest)
  | Alt r1 r2 => (ends r1 prev rest ++ ends r2 prev rest)%list
  | StarG p => map (fun n => (n, [])) (down_to_zero (run p rest))
  | PlusG p => map (fun n => (n, [])) (down_to_one (run p rest))
  | PlusL p => map (fun n => (n, [])) (rev (down_to_one (run p rest)))
  | WordB =>
      if xorb (word_opt prev) (word_opt (head_char rest)) then [(0, [])] else []
  | Eos =>
      match rest with
      | "" => [(0, [])]
      | String c "" => if Ascii.eqb c "010" then [(0, [])] else []
      | _ => []
      end
  | Grp r1 => map (fun e => (fst e, take (fst e) rest :: snd e)) (ends r1 prev rest)
  | Eps => [(0, [])]
  end.

(** A match object: [m.start()], [m.group(0)], [m.groups()]. *)
Record match_obj : Type := MatchObj {
  m_start : nat;
  m_group0 : string;
  m_groups : list string
}.

Definition match_here (r : regex) (prev : option ascii) (rest : string)
  (pos : nat) : option match_obj :=
  match ends r prev rest with
  | e :: _ => Some (MatchObj pos (take (fst e) rest) (snd e))
  | [] => None
  end.

Fixpoint search_from (r : regex) (prev : option ascii) (rest : string)
  (pos : nat) : option match_obj :=
  match match_here r prev rest pos with
  | Some m => Some m
  | None =>
      match rest with
      | "" => None
      | String c rest' => search_from r (Some c) rest' (S pos)
      end
  end.

(** [re.search(r, text)]: the match at the leftmost position that has one *)
Definition search (r : regex) (text : string) : option match_obj :=
  search_from r None text 0.

(** The scan of [re.finditer]: [skip] characters are still covered by the
    last match; elsewhere a match is tried, and the scan resumes where it
    ends (one character on when it is empty). *)
Fixpoint scan (r : regex) (prev : option ascii) (rest : string)
  (pos skip : nat) : list match_obj :=
  match skip with
  | S k =>
      match rest with
      | "" => []
      | String c rest' => scan r (Some c) rest' (S pos) k
      end
  | 0 =>
      match match_here r prev rest pos with
      | Some m =>
          m :: match rest with
               | "" => []
               | String c rest' =>
                   scan r (Some c) rest' (S pos) (pred (length (m_group0 m)))
               end
      | None =>
          match rest with
          | "" => []
          | String c rest' => scan r (Some c) rest' (S pos) 0
          end
      end
  end.

Definition finditer (r : regex) (text : string) : list match_obj :=
  scan r None text 0 0.

(** [re.findall(r, text)] for a pattern with groups: the groups of every
    non-overlapping match, left to right *)
Definition findall (r : regex) (text : string) : list (list string) :=
  map m_groups (finditer r text).

End Re.

(** ** Python values the generator handles *)

Module Py.

(** A JSON number as Python reads it: an [int] or a finite [float] is a
    rational; [json.load] also accepts [Infinity], [-Infinity] and [NaN]. *)
Inductive pynum : Type :=
| Fin (q : Q)
| PosInf
| NegInf
| NaN.

(** [x <= k] for an integer literal [k] *)
Definition num_le (x : pynum) (k : Z) : bool :=
  match x with
  | Fin q => Qle_bool q (inject_Z k)
  | NegInf => true
  | PosInf | NaN => false
  end.

(** [x >= k] for an integer literal [k] *)
Definition num_ge (x : pynum) (k : Z) : bool :=
  match x with
  | Fin q => Qle_bool (inject_Z k) q
  | PosInf => true
  | NegInf | NaN => false
  end.

(** [d.get(key, default)] on a record field *)
Definition get {A : Type} (field : option A) (default : A) : A :=
  match field with
  | Some v => v
  | None => default
  end.

(** A JSON object with free keys (the legality map), in key order. *)
Definition dict : Type := list (string * string).

Fixpoint dict_get (d : dict) (key default : string) : string :=
  match d with
  | [] => default
  | (k, v) :: d' => if String.eqb k key then v else dict_get d' key default
  end.

(** A [set] of strings, as the sequence of its distinct insertions. *)
Definition pyset : Type := list string.

Definition set_add (s : pyset) (x : string) : pyset :=
  if existsb (String.eqb x) s then s else (s ++ [x])%list.

(** [s.update(xs)] *)
Definition set_update (s : pyset) (xs : list string) : pyset :=
  fold_left set_add xs s.

(** What a conversion reads from the interpreter process besides its
    argument: the order in which [list(a_set)] enumerates a set of strings.
    It is some arrangement of the set's elements, fixed by the hash seed of
    the process. *)
Record PyRuntime : Type := {
  list_of_set : pyset -> list string;
  list_of_set_perm : forall s, Permutation (list_of_set s) s
}.

End Py.

(** ** The output records *)

Module IR.
Import Py.

(** an entry of [costs]: the keys ["type"] and ["value"] *)
Record Cost : Type := {
  cost_type : string;
  cost_value : string
}.

(** an entry of [triggers]: the keys ["condition"] and ["timing"] *)
Record Trigger : Type := {
  condition : string;
  timing : string
}.

(** an entry of [effects]: the keys ["type"], ["targets"] and ["value"] *)
Record Effect : Type := {
  effect_type : string;
  targets : list string;
  effect_value : Z
}.

Record ParsedComponents : Type := {
  costs : list Cost;
  triggers : list Trigger;
  effects : list Effect
}.

Record Ability : Type := {
  ability_id : string;
  ability_type : string;
  raw_text : string;
  parsed_components : ParsedComponents
}.

Record CardMetadata : Type := {
  name : string;
  oracle_id : string;
  scryfall_id : string;
  mana_cost : string;
  cmc : pynum;
  type_line : string;
  oracle_text : string;
  colors : list string;
  color_identity : list string;
  keywords : list string;
  power : option string;
  toughness : option string;
  loyalty : option string
}.

Record HierarchicalTag : Type := {
  path : list string;
  confidence : Q
}.

Record RewardHints : Type := {
  immediate_impact : bool;
  delayed_impact : bool;
  symmetrical : bool;
  card_advantage : Z
}.

Record StrategicTags : Type := {
  hierarchical_tags : list HierarchicalTag;
  flattened_tags : list string;
  archetype_hints : list string;
  reward_hints : RewardHints
}.

Record FormatLegality : Type := {
  commander : string;
  can_be_commander : bool
}.

Record GameplayMetadata : Type := {
  zones : list string;
  enters_tapped : bool;
  has_abilities_in_graveyard : bool
}.

(** the dataclass [CardIR] *)
Record CardIR : Type := {
  ir_version : string;
  generated_at : string;
  card_metadata : CardMetadata;
  parsed_abilities : list Ability;
  strategic_tags : StrategicTags;
  format_legality : FormatLegality;
  gameplay_metadata : option GameplayMetadata
}.

(** the dict [card_data] that [convert_scryfall_to_ir] hands to the tagger *)
Record CardData : Type := {
  cd_card_metadata : CardMetadata;
  cd_parsed_abilities : list Ability
}.

(** The input: a Scryfall card object.  [None] is an absent key. *)
Record Scryfall : Type := {
  in_name : option string;
  in_oracle_id : option string;
  in_id : option string;
  in_mana_cost : option string;
  in_cmc : option pynum;
  in_type_line : option string;
  in_oracle_text : option string;
  in_colors : option (list string);
  in_color_identity : option (list string);
  in_keywords : option (list string);
  in_power : option string;
  in_toughness : option string;
  in_loyalty : option string;
  in_legalities : option dict
}.

End IR.

(** ** class AbilityParser *)

Module AbilityParser.
Import PyStr Re Py IR.

Definition _classify_ability_type (text : string) : string :=
  if contains ":" text then "activated"
  else if existsb (fun trigger => contains trigger (lower text))
            ["when"; "whenever"; "at the beginning"]
  then "triggered"
  else if existsb (fun keyword => contains keyword (lower text))
            ["flying"; "trample"; "haste"; "vigilance"]
  then "keyword"
  else "static".

(** [[WUBRG\d]] *)
Definition mana_class (c : ascii) : bool :=
  existsb (Ascii.eqb c) ["W"; "U"; "B"; "R"; "G"]%char || is_digit c.

(** [r'\{([WUBRG\d]+)\}'] *)
Definition mana_pattern : regex :=
  Cat (chr "{") (Cat (Grp (PlusG mana_class)) (chr "}")).

(** [r'(?i)\b(tap|t)\b'] *)
Definition tap_pattern : regex :=
  Cat WordB (Cat (Grp (Alt (lit_i "tap") (lit_i "t"))) WordB).

(** what [re.findall] returns for a pattern with one group, and with two
    ([""] stands for a group that does not exist) *)
Definition group1 (groups : list string) : string := nth 0 groups "".
Definition group2 (groups : list string) : string := nth 1 groups "".

Definition _extract_costs (text : string) : list Cost :=
  let costs := [] in
  let mana_matches := map group1 (findall mana_pattern text) in
  let costs :=
    fold_left
      (fun costs mana =>
         (costs ++ [{| cost_type := "mana"; cost_value := "{" ++ mana ++ "}" |}])%list)
      mana_matches costs in
  match search tap_pattern text with
  | Some _ => (costs ++ [{| cost_type := "tap"; cost_value := "Tap" |}])%list
  | None => costs
  end.

(** [r"when .* enters"], [r"whenever .* dies"], [r"at the beginning"] *)
Definition when_enters : regex :=
  Cat (lit "when ") (Cat (StarG dot) (lit " enters")).
Definition whenever_dies : regex :=
  Cat (lit "whenever ") (Cat (StarG dot) (lit " dies")).
Definition at_the_beginning : regex := lit "at the beginning".

Definition trigger_patterns : list (regex * string) :=
  [ (when_enters, "when");
    (whenever_dies, "whenever");
    (at_the_beginning, "at") ].

(** The source calls [re.search] in the test and again for [group(0)], on
    the same arguments: both calls return the same match. *)
Definition _extract_triggers (text : string) : list Trigger :=
  fold_left
    (fun triggers pt =>
       match search (fst pt) (lower text) with
       | Some m =>
           (triggers ++ [{| condition := m_group0 m; timing := snd pt |}])%list
       | None => triggers
       end)
    trigger_patterns [].

(** [r'deals (\d+) damage to (.+?)(?:\.|$)'] *)
Definition damage_pattern : regex :=
  Cat (lit "deals ")
    (Cat (Grp (PlusG is_digit))
       (Cat (lit " damage to ")
          (Cat (Grp (PlusL dot)) (Alt (chr ".") Eos)))).

Definition _extract_effects (text : string) : list Effect :=
  let damage_matches :=
    map (fun groups => (group1 groups, group2 groups))
      (findall damage_pattern (lower text)) in
  fold_left
    (fun effects dt =>
       (effects ++ [{| effect_type := "damage";
                       targets := [strip (snd dt)];
                       effect_value := int_of (fst dt) |}])%list)
    damage_matches [].

Definition parse_ability (text ability_id : string) : Ability :=
  {| ability_id := ability_id;
     ability_type := _classify_ability_type text;
     raw_text := text;
     parsed_components :=
       {| costs := _extract_costs text;
          triggers := _extract_triggers text;
          effects := _extract_effects text |} |}.

End AbilityParser.

(** ** class StrategicTagger *)

Module StrategicTagger.
Import PyStr Py IR.

(** A value of [TAG_RULES]: a list of substrings or a lambda over the card. *)
Inductive matcher : Type :=
| Substrings (patterns : list string)
| Predicate (rule : CardData -> bool).

Definition TAG_RULES : list (string * list (string * matcher)) :=
  [ ("interaction",
      [ ("removal", Substrings ["deals"; "damage"; "destroy"; "exile"; "return to hand"]);
        ("counterspell", Substrings ["counter target"]);
        ("protection", Substrings ["prevent"; "indestructible"; "hexproof"]) ]);
    ("tempo",
      [ ("low_cost_interaction",
          Predicate (fun card => num_le (cmc (cd_card_metadata card)) 2));
        ("bounce", Substrings ["return"; "bounce"]) ]);
    ("value",
      [ ("card_draw", Substrings ["draw"; "cards"]);
        ("tutoring", Substrings ["search"; "library"]) ]);
    ("ramp",
      [ ("mana_acceleration", Substrings ["add mana"; "lands"; "mana cost"]) ]) ].

(** the two accumulators of [generate_tags] *)
Definition tag_state : Type := (list HierarchicalTag * pyset)%type.

Definition add_tag (st : tag_state) (category subcategory : string) (conf : Q)
  : tag_state :=
  let path := [category; subcategory] in
  ((fst st ++ [{| path := path; confidence := conf |}])%list,
   set_update (snd st) path).

(** [for pattern in patterns: if pattern in oracle_text: ...; break] *)
Fixpoint pattern_loop (patterns : list string) (oracle_text : string)
  (category subcategory : string) (st : tag_state) : tag_state :=
  match patterns with
  | [] => st
  | pattern :: rest =>
      if contains pattern oracle_text
      then add_tag st category subcategory (9 # 10)
      else pattern_loop rest oracle_text category subcategory st
  end.

Definition apply_rule (card_data : CardData) (oracle_text category : string)
  (st : tag_state) (rule : string * matcher) : tag_state :=
  match snd rule with
  | Predicate patterns =>
      if patterns card_data then add_tag st category (fst rule) (8 # 10) else st
  | Substrings patterns =>
      pattern_loop patterns oracle_text category (fst rule) st
  end.

Definition apply_rules (card_data : CardData) (oracle_text : string)
  (rules : list (string * list (string * matcher))) (st : tag_state) : tag_state :=
  fold_left
    (fun st cat =>
       fold_left (apply_rule card_data oracle_text (fst cat)) (snd cat) st)
    rules st.

Definition _generate_archetype_hints (card_data : CardData) : list string :=
  let hints := [] in
  let cmc := cmc (cd_card_metadata card_data) in
  let type_line := lower (type_line (cd_card_metadata card_data)) in
  let hints := if num_le cmc 2 then (hints ++ ["aggro"])%list else hints in
  let hints := if num_ge cmc 6 then (hints ++ ["control"])%list else hints in
  let hints :=
    if contains "instant" type_line
       || contains "flash" (lower (oracle_text (cd_card_metadata card_data)))
    then (hints ++ ["tempo"])%list else hints in
  let hints :=
    if existsb
         (fun keyword =>
            contains keyword (lower (oracle_text (cd_card_metadata card_data))))
         ["combo"; "infinite"; "win the game"]
    then (hints ++ ["combo"])%list else hints in
  hints.

Definition _estimate_card_advantage (oracle_text : string) : Z :=
  if contains "draw" oracle_text then 1%Z
  else if contains "search" oracle_text then 0%Z
  else if contains "deals" oracle_text || contains "damage" oracle_text
          || contains "destroy" oracle_text
  then (-1)%Z
  else 0%Z.

Definition _generate_reward_hints (card_data : CardData) (oracle_text : string)
  : RewardHints :=
  let type_line := lower (type_line (cd_card_metadata card_data)) in
  {| immediate_impact := contains "instant" type_line || contains "flash" oracle_text;
     delayed_impact := contains "enchantment" type_line || contains "artifact" type_line;
     symmetrical := contains "each player" oracle_text || contains "all players" oracle_text;
     card_advantage := _estimate_card_advantage oracle_text |}.

Definition generate_tags (rt : PyRuntime) (card_data : CardData) : StrategicTags :=
  let oracle_text := lower (oracle_text (cd_card_metadata card_data)) in
  let st := apply_rules card_data oracle_text TAG_RULES ([], []) in
  let archetype_hints := _generate_archetype_hints card_data in
  let reward_hints := _generate_reward_hints card_data oracle_text in
  {| hierarchical_tags := fst st;
     flattened_tags := list_of_set rt (snd st);
     archetype_hints := archetype_hints;
     reward_hints := reward_hints |}.

End StrategicTagger.

(** ** class CardIRGenerator *)

Module CardIRGenerator.
Import PyStr Py IR.

Definition _extract_metadata (data : Scryfall) : CardMetadata :=
  {| name := get (in_name data) "";
     oracle_id := get (in_oracle_id data) "";
     scryfall_id := get (in_id data) "";
     mana_cost := get (in_mana_cost data) "";
     cmc := get (in_cmc data) (Fin 0);
     type_line := get (in_type_line data) "";
     oracle_text := get (in_oracle_text data) "";
     colors := get (in_colors data) [];
     color_identity := get (in_color_identity data) [];
     keywords := get (in_keywords data) [];
     power := in_power data;
     toughness := in_toughness data;
     loyalty := in_loyalty data |}.

Definition _parse_abilities (data : Scryfall) : list Ability :=
  let oracle_text := get (in_oracle_text data) "" in
  if String.eqb oracle_text "" then []
  else
    let ability_id :=
      replace_char " " "_" (lower (get (in_name data) "unknown")) ++ "_main_effect" in
    [AbilityParser.parse_ability oracle_text ability_id].

Definition _extract_legality (data : Scryfall) : FormatLegality :=
  let legalities := get (in_legalities data) [] in
  let type_line := lower (get (in_type_line data) "") in
  {| commander := dict_get legalities "commander" "not_legal";
     can_be_commander := contains "legendary" type_line && contains "creature" type_line |}.

Definition _extract_gameplay_metadata (data : Scryfall) : GameplayMetadata :=
  let type_line := lower (get (in_type_line data) "") in
  let oracle_text := lower (get (in_oracle_text data) "") in
  let zones := ["hand"] in
  let zones :=
    if existsb (fun t => contains t type_line)
         ["creature"; "artifact"; "enchantment"; "planeswalker"]
    then (zones ++ ["battlefield"])%list else zones in
  let zones := (zones ++ ["graveyard"; "exile"; "library"])%list in
  let zones :=
    if negb (existsb (fun t => contains t type_line) ["instant"; "sorcery"])
    then (zones ++ ["stack"])%list else zones in
  {| zones := zones;
     enters_tapped :=
       contains "enters tapped" oracle_text
       || contains "enters the battlefield tapped" oracle_text;
     has_abilities_in_graveyard :=
       contains "graveyard" oracle_text
       && (contains "activate" oracle_text || contains ":" oracle_text) |}.

(** [now] is what [datetime.utcnow().isoformat()] returns at the call. *)
Definition convert_scryfall_to_ir (rt : PyRuntime) (now : string)
  (scryfall_data : Scryfall) : CardIR :=
  let card_metadata := _extract_metadata scryfall_data in
  let parsed_abilities := _parse_abilities scryfall_data in
  let card_data :=
    {| cd_card_metadata := card_metadata; cd_parsed_abilities := parsed_abilities |} in
  let strategic_tags := StrategicTagger.generate_tags rt card_data in
  let format_legality := _extract_legality scryfall_data in
  let gameplay_metadata := _extract_gameplay_metadata scryfall_data in
  {| ir_version := "1.0.0";
     generated_at := now ++ "Z";
     card_metadata := card_metadata;
     parsed_abilities := parsed_abilities;
     strategic_tags := strategic_tags;
     format_legality := format_legality;
     gameplay_metadata := Some gameplay_metadata |}.

End CardIRGenerator.

(** ** What the patterns look for, said without the matcher *)

Module Occurrences.
Import PyStr Re IR.

Fixpoint last_char (s : string) : option ascii :=
  match s with
  | "" => None
  | String c s' =>
      match last_char s' with
      | Some d => Some d
      | None => Some c
      end
  end.

(** The shape of a trigger pattern: a fixed phrase, or two phrases around
    any stretch of one line. *)
Inductive template : Type :=
| Literal (w : string)
| Gap (pre suf : string).

Definition template_regex (t : template) : regex :=
  match t with
  | Literal w => lit w
  | Gap pre suf => Cat (lit pre) (Cat (StarG dot) (lit suf))
  end.

Definition Instance (t : template) (span : string) : Prop :=
  match t with
  | Literal w => span = w
  | Gap pre suf =>
      exists mid, span = pre ++ mid ++ suf /\ forall_chars dot mid = true
  end.

(** [span] is an instance of [t] that lies in [text] at offset [i] *)
Definition InstanceAt (t : template) (text : string) (i : nat) (span : string)
  : Prop :=
  Instance t span /\ exists a b, text = a ++ span ++ b /\ length a = i.

(** [span] is the first occurrence of [t] in [text]: no instance starts
    further left, and none that starts at the same offset is longer *)
Definition FirstInstance (t : template) (text span : string) : Prop :=
  exists i,
    InstanceAt t text i span /\
    forall j span', InstanceAt t text j span' ->
      i < j \/ (i = j /\ length span' <= length span).

(** what one template contributes to the triggers *)
Definition Contribution (t : template) (label text : string)
  (entries : list Trigger) : Prop :=
  (entries = [] /\ forall i span, ~ InstanceAt t text i span) \/
  (exists span,
     entries = [{| condition := span; timing := label |}] /\
     FirstInstance t text span).

(** a brace-delimited mana symbol [{sym}] lies in [text] at offset [i] *)
Definition TokenAt (text : string) (i : nat) (sym : string) : Prop :=
  sym <> "" /\
  forall_chars AbilityParser.mana_class sym = true /\
  exists a b, text = a ++ "{" ++ sym ++ "}" ++ b /\ length a = i.

(** [w] (in lower case) stands in [text] as a whole word, in any case *)
Definition WholeWord (w text : string) : Prop :=
  exists a x b,
    text = a ++ x ++ b /\ lower x = w /\
    word_opt (last_char a) = false /\ word_opt (head_char b) = false.

(** a closing brace stands at offset [k] of [r1] *)
Definition close_at (r1 : string) (k : nat) : bool :=
  match head_char (drop k r1) with
  | Some d => Ascii.eqb "}" d
  | None => false
  end.

(** the mana symbol that starts at the head of [rest], if one does *)
Definition token_here (rest : string) : option string :=
  match rest with
  | String c r1 =>
      let n := run AbilityParser.mana_class r1 in
      if Ascii.eqb "{" c && Nat.leb 1 n
         && match head_char (drop n r1) with
            | Some d => Ascii.eqb "}" d
            | None => false
            end
      then Some (take n r1) else None
  | "" => None
  end.

(** every mana symbol of [rest], with its offset counted from [pos] *)
Fixpoint all_tokens (rest : string) (pos : nat) : list (nat * string) :=
  (match token_here rest with Some sym => [(pos, sym)] | None => [] end
   ++ match rest with
      | "" => []
      | String _ rest' => all_tokens rest' (S pos)
      end)%list.

(** [w] is a prefix of [s] when case is ignored *)
Fixpoint prefix_i (w s : string) : bool :=
  match w, s with
  | "", _ => true
  | String c w', String d s' =>
      Ascii.eqb (lower_char d) (lower_char c) && prefix_i w' s'
  | String _ _, "" => false
  end.

(** [\b]: exactly one side of the cursor is a word character *)
Definition boundary (prev next : option ascii) : bool :=
  xorb (word_opt prev) (word_opt next).

(** [w] stands ahead, in any case, and a word boundary follows it *)
Definition word_here (w : string) (prev : option ascii) (rest : string) : bool :=
  prefix_i w rest
  && boundary (prev_after prev rest (length w)) (head_char (drop (length w) rest)).

(** the entries of [costs] *)
Definition mana_entry (t : nat * string) : Cost :=
  {| cost_type := "mana"; cost_value := "{" ++ snd t ++ "}" |}.

Definition tap_entry : Cost := {| cost_type := "tap"; cost_value := "Tap" |}.

End Occurrences.

(** ** The invariant of the tagging loops *)

Module Invariants.
Import Py IR StrategicTagger.

(** [st'] holds at least the tags of [st], and its set is still duplicate
    free if that of [st] was. *)
Definition grows (st st' : tag_state) : Prop :=
  incl (fst st) (fst st') /\ incl (snd st) (snd st') /\
  (NoDup (snd st) -> NoDup (snd st')).

End Invariants.

(** ** Sample inputs and interpreter processes *)

Module Samples.
Import Py IR.

(** the Lightning Bolt record of the test suite and of the specification *)
Definition lightning_bolt : Scryfall :=
  {| in_name := Some "Lightning Bolt";
     in_oracle_id := None;
     in_id := None;
     in_mana_cost := Some "{R}";
     in_cmc := Some (Fin 1);
     in_type_line := Some "Instant";
     in_oracle_text := Some "Lightning Bolt deals 3 damage to any target.";
     in_colors := Some ["R"];
     in_color_identity := None;
     in_keywords := None;
     in_power := None;
     in_toughness := None;
     in_loyalty := None;
     in_legalities := Some [("commander", "legal")] |}.

(** a record with rules text and no ["name"] key *)
Definition nameless_card : Scryfall :=
  {| in_name := None;
     in_oracle_id := None;
     in_id := None;
     in_mana_cost := None;
     in_cmc := None;
     in_type_line := None;
     in_oracle_text := Some "Flying";
     in_colors := None;
     in_color_identity := None;
     in_keywords := None;
     in_power := None;
     in_toughness := None;
     in_loyalty := None;
     in_legalities := None |}.

(** a record with no key at all *)
Definition empty_card : Scryfall :=
  {| in_name := None;
     in_oracle_id := None;
     in_id := None;
     in_mana_cost := None;
     in_cmc := None;
     in_type_line := None;
     in_oracle_text := None;
     in_colors := None;
     in_color_identity := None;
     in_keywords := None;
     in_power := None;
     in_toughness := None;
     in_loyalty := None;
     in_legalities := None |}.

(** Two interpreter processes: one whose hash seed makes a set of strings
    enumerate in insertion order, one in which it comes out reversed.
    CPython 3.11 enumerates the four tags of Lightning Bolt in the first
    way under PYTHONHASHSEED=8 and in the second under PYTHONHASHSEED=110. *)
Definition runtime_a : PyRuntime :=
  {| list_of_set := fun s => s;
     list_of_set_perm := fun s => Permutation_refl s |}.

Definition runtime_b : PyRuntime :=
  {| list_of_set := fun s => rev s;
     list_of_set_perm := fun s => Permutation_sym (Permutation_rev s) |}.

(** an output record with its [generated_at] stamp blanked *)
Definition without_timestamp (ir : CardIR) : CardIR :=
  {| ir_version := ir_version ir;
     generated_at := "";
     card_metadata := card_metadata ir;
     parsed_abilities := parsed_abilities ir;
     strategic_tags := strategic_tags ir;
     format_legality := format_legality ir;
     gameplay_metadata := gameplay_metadata ir |}.

(** The ability identifier as first stated: the identifier is built from the name, and
    an absent name counts as the empty string. *)
Definition ability_id_from_name_or_empty (data : Scryfall) : Prop :=
  get (in_oracle_text data) "" <> "" ->
  exists ability,
    CardIRGenerator._parse_abilities data = [ability] /\
    ability_id ability =
      PyStr.replace_char " " "_" (PyStr.lower (get (in_name data) "")) ++ "_main_effect".

(** Determinism as first stated: any two invocations on one record agree on
    every field but [generated_at], list orders included. *)
Definition same_output_everywhere (data : Scryfall) : Prop :=
  forall (rt1 rt2 : PyRuntime) (now1 now2 : string),
    without_timestamp (CardIRGenerator.convert_scryfall_to_ir rt1 now1 data) =
    without_timestamp (CardIRGenerator.convert_scryfall_to_ir rt2 now2 data).

End Samples.

(** ** The rule table read as a filter *)

Module TagSpec.
Import PyStr Py IR StrategicTagger.

(** a rule applies to the card: one of its substrings occurs in the
    lowercased oracle text, or its predicate holds *)
Definition fires (card_data : CardData) (oracle_text : string) (m : matcher)
  : bool :=
  match m with
  | Substrings patterns => existsb (fun p => contains p oracle_text) patterns
  | Predicate rule => rule card_data
  end.

Definition rule_confidence (m : matcher) : Q :=
  match m with
  | Substrings _ => 9 # 10
  | Predicate _ => 8 # 10
  end.

Definition rule_tag (category : string) (rule : string * matcher)
  : HierarchicalTag :=
  {| path := [category; fst rule]; confidence := rule_confidence (snd rule) |}.

(** the tags of the rules that apply, in table order *)
Definition fired_tags (card_data : CardData) (oracle_text : string)
  (rules : list (string * list (string * matcher))) : list HierarchicalTag :=
  flat_map
    (fun cat =>
       flat_map
         (fun rule =>
            if fires card_data oracle_text (snd rule)
            then [rule_tag (fst cat) rule] else [])
         (snd cat))
    rules.

(** the table as one list of rules, each with its category *)
Definition table_rules (rules : list (string * list (string * matcher)))
  : list (string * (string * matcher)) :=
  flat_map (fun cat => map (fun rule => (fst cat, rule)) (snd cat)) rules.

Definition rule_path (cr : string * (string * matcher)) : list string :=
  [fst cr; fst (snd cr)].

(** what the two accumulators of [generate_tags] hold after part of the
    table: the tags so far, and the names on their paths *)
Definition accumulated (st st' : tag_state) (tags : list HierarchicalTag) : Prop :=
  fst st' = (fst st ++ tags)%list /\
  forall x, In x (snd st') <->
            In x (snd st) \/ exists t, In t tags /\ In x (path t).

End TagSpec.

(** ** CardIRGenerator.process_batch: which files it handles *)

Module Batch.
Import PyStr.

(** [name.endswith(suffix)] *)
Fixpoint endswith (suffix name : string) : bool :=
  String.eqb name suffix ||
  match name with
  | "" => false
  | String _ name' => endswith suffix name'
  end.

(** [input_dir.glob("*.json")], on the names of the directory in the order
    the file system lists them *)
Definition glob_json (listing : list string) : list string :=
  filter (endswith ".json") listing.

(** The loop of [process_batch], as the calls
    [process_file(input_dir / name, output_dir / output)] it makes, in
    order, as long as none of them raises. *)
Definition process_batch (listing : list string) : list (string * string) :=
  fold_left
    (fun calls name =>
       if prefix "sample_card_" name && negb (prefix "sample_card_ir_" name)
       then (calls ++ [(name, ("ir_" ++ name)%string)])%list
       else calls)
    (glob_json listing) [].

End Batch.

(** ** Shapes of identifiers and of damage clauses *)

Module Shapes.
Import PyStr Re.


(** the damage pattern after "deals ": digits, " damage to ", a target, an
    end *)
Definition damage_tail : regex :=
  Cat (Grp (PlusG is_digit))
    (Cat (lit " damage to ") (Cat (Grp (PlusL dot)) (Alt (chr ".") Eos))).

(** the text at which [(?:\.|$)] matches: a period ahead, the end of the
    text, or its last newline *)
Definition target_end (s : string) : Prop :=
  (exists s', s = String "." s') \/ s = "" \/ s = String "010" "".

End Shapes.

(** * Properties *)

(** ** Facts about strings *)

Module PyStrFacts.
Import PyStr.

Lemma app_nil_r (s : string) : s ++ "" = s.
Proof. induction s as [|c s IH]; simpl; [reflexivity | now rewrite IH]. Qed.

Lemma app_assoc (a b c : string) : (a ++ b) ++ c = a ++ b ++ c.
Proof. induction a as [|x a IH]; simpl; [reflexivity | now rewrite IH]. Qed.

Lemma length_app (a b : string) : length (a ++ b) = length a + length b.
Proof. induction a as [|x a IH]; simpl; [reflexivity | now rewrite IH]. Qed.

Lemma app_eq_nil (a b : string) : a ++ b = "" -> a = "" /\ b = "".
Proof. destruct a; simpl; [auto | discriminate]. Qed.

Lemma prefix_spec (p s : string) :
  prefix p s = true <-> exists b, s = p ++ b.
Proof.
  revert s. induction p as [|c p IH]; intros s.
  - destruct s; simpl; split; eauto.
  - destruct s as [|d s]; simpl.
    + split; [discriminate | intros [b Hb]; discriminate].
    + destruct (ascii_dec c d) as [->|Hcd].
      * rewrite IH. split; intros [b Hb]; exists b; congruence.
      * split; [discriminate | intros [b Hb]; congruence].
Qed.

Lemma prefix_app (p b : string) : prefix p (p ++ b) = true.
Proof. apply prefix_spec. now exists b. Qed.

Lemma contains_nil (sub : string) : contains sub "" = prefix sub "".
Proof. unfold contains. apply orb_false_r. Qed.

Lemma contains_cons (sub : string) (c : ascii) (s : string) :
  contains sub (String c s) = prefix sub (String c s) || contains sub s.
Proof. reflexivity. Qed.

(** [sub in s] holds exactly when [s] splits around a copy of [sub]. *)
Lemma contains_spec (sub s : string) :
  contains sub s = true <-> Occurs sub s.
Proof.
  unfold Occurs. induction s as [|c s IH].
  - rewrite contains_nil, prefix_spec. split.
    + intros [b Hb]. exists "", b. exact Hb.
    + intros (a & b & H). symmetry in H. apply app_eq_nil in H as [-> H].
      exists b. now rewrite H.
  - rewrite contains_cons, orb_true_iff, prefix_spec, IH. split.
    + intros [[b Hb] | (a & b & Hab)].
      * exists "", b. exact Hb.
      * exists (String c a), b. simpl. now rewrite Hab.
    + intros (a & b & H). destruct a as [|x a]; simpl in H.
      * left. now exists b.
      * right. exists a, b. congruence.
Qed.

Lemma contains_false (sub s : string) :
  contains sub s = false <-> ~ Occurs sub s.
Proof.
  rewrite <- contains_spec. destruct (contains sub s); split; congruence.
Qed.

(** [any(x in s for x in xs)] *)
Lemma any_contains_spec (xs : list string) (s : string) :
  existsb (fun x => contains x s) xs = true <->
  exists x, In x xs /\ Occurs x s.
Proof.
  rewrite existsb_exists. split; intros (x & Hx & H); exists x; split; auto;
    now apply contains_spec.
Qed.

Lemma any_contains_false (xs : list string) (s : string) :
  existsb (fun x => contains x s) xs = false <-> ~ AnyOccurs xs s.
Proof.
  unfold AnyOccurs. rewrite <- any_contains_spec.
  destruct (existsb _ xs); split; congruence.
Qed.

Lemma length_lower (s : string) : length (lower s) = length s.
Proof. induction s as [|x s IH]; simpl; [reflexivity | now rewrite IH]. Qed.

Lemma take_app_length (a b : string) : take (length a) (a ++ b) = a.
Proof. induction a as [|x a IH]; simpl; [now destruct b | now rewrite IH]. Qed.

Lemma drop_app_length (a b : string) : drop (length a) (a ++ b) = b.
Proof. induction a as [|x a IH]; simpl; [now destruct b | exact IH]. Qed.

Lemma take_drop (n : nat) (s : string) : take n s ++ drop n s = s.
Proof.
  revert s. induction n as [|n IH]; intros [|c s]; simpl; try reflexivity.
  now rewrite IH.
Qed.

Lemma length_take (n : nat) (s : string) :
  n <= length s -> length (take n s) = n.
Proof.
  revert s. induction n as [|n IH]; intros [|c s]; simpl; intros H;
    try reflexivity; try lia.
  rewrite IH; [reflexivity | lia].
Qed.

End PyStrFacts.

(** ** Ability classification *)

Module ClassifyFacts.
Import PyStr PyStrFacts IR AbilityParser.

(** C5: [_classify_ability_type] decides by strict priority: a colon gives
    "activated" whatever else the text holds; failing that, one of "when",
    "whenever", "at the beginning" in the lowercased text gives "triggered";
    failing that, one of "flying", "trample", "haste", "vigilance" gives
    "keyword"; failing all three, "static". *)
Theorem classify_ability_type_priority (text : string) :
  (Occurs ":" text -> _classify_ability_type text = "activated") /\
  (~ Occurs ":" text ->
   AnyOccurs ["when"; "whenever"; "at the beginning"] (lower text) ->
   _classify_ability_type text = "triggered") /\
  (~ Occurs ":" text ->
   ~ AnyOccurs ["when"; "whenever"; "at the beginning"] (lower text) ->
   AnyOccurs ["flying"; "trample"; "haste"; "vigilance"] (lower text) ->
   _classify_ability_type text = "keyword") /\
  (~ Occurs ":" text ->
   ~ AnyOccurs ["when"; "whenever"; "at the beginning"] (lower text) ->
   ~ AnyOccurs ["flying"; "trample"; "haste"; "vigilance"] (lower text) ->
   _classify_ability_type text = "static").
Proof.
  unfold _classify_ability_type.
  repeat split.
  - intros H. apply contains_spec in H. now rewrite H.
  - intros Hc Ht. apply contains_false in Hc. apply any_contains_spec in Ht.
    now rewrite Hc, Ht.
  - intros Hc Ht Hk. apply contains_false in Hc.
    apply any_contains_false in Ht. apply any_contains_spec in Hk.
    now rewrite Hc, Ht, Hk.
  - intros Hc Ht Hk. apply contains_false in Hc.
    apply any_contains_false in Ht. apply any_contains_false in Hk.
    now rewrite Hc, Ht, Hk.
Qed.

(** The four outcomes are reached, and a colon beats a trigger word. *)
Example classify_samples :
  _classify_ability_type "When this enters, {T}: Draw a card." = "activated" /\
  _classify_ability_type "Whenever a creature dies, draw a card." = "triggered" /\
  _classify_ability_type "Flying, vigilance" = "keyword" /\
  _classify_ability_type "Lightning Bolt deals 3 damage to any target." = "static".
Proof. repeat split; reflexivity. Qed.

End ClassifyFacts.

(** ** Reward hints *)

Module RewardFacts.
Import PyStr PyStrFacts Py IR StrategicTagger.

(** C4: [card_advantage] is settled by the first rule that applies to the
    lowercased oracle text: "draw" gives 1; else "search" gives 0; else
    "deals", "damage" or "destroy" gives -1; else 0.  A text with both
    "draw" and "damage" gets 1. *)
Theorem card_advantage_first_match (rt : PyRuntime) (card_data : CardData) :
  let text := lower (oracle_text (cd_card_metadata card_data)) in
  let result := card_advantage (reward_hints (generate_tags rt card_data)) in
  result = _estimate_card_advantage text /\
  (Occurs "draw" text -> result = 1%Z) /\
  (~ Occurs "draw" text -> Occurs "search" text -> result = 0%Z) /\
  (~ Occurs "draw" text -> ~ Occurs "search" text ->
   AnyOccurs ["deals"; "damage"; "destroy"] text -> result = (-1)%Z) /\
  (~ Occurs "draw" text -> ~ Occurs "search" text ->
   ~ AnyOccurs ["deals"; "damage"; "destroy"] text -> result = 0%Z) /\
  (Occurs "draw" text -> Occurs "damage" text -> result = 1%Z).
Proof.
  intros text result.
  assert (E : result = _estimate_card_advantage text) by reflexivity.
  split; [exact E |]. rewrite E. clear E result.
  unfold _estimate_card_advantage.
  assert (Hany : contains "deals" text || contains "damage" text
                 || contains "destroy" text
                 = existsb (fun x => contains x text) ["deals"; "damage"; "destroy"]).
  { simpl. rewrite orb_false_r, orb_assoc. reflexivity. }
  rewrite Hany. clear Hany.
  repeat split.
  - intros H. apply contains_spec in H. now rewrite H.
  - intros Hd Hs. apply contains_false in Hd. apply contains_spec in Hs.
    now rewrite Hd, Hs.
  - intros Hd Hs Ha. apply contains_false in Hd. apply contains_false in Hs.
    apply any_contains_spec in Ha. now rewrite Hd, Hs, Ha.
  - intros Hd Hs Ha. apply contains_false in Hd. apply contains_false in Hs.
    apply any_contains_false in Ha. now rewrite Hd, Hs, Ha.
  - intros H _. apply contains_spec in H. now rewrite H.
Qed.

Example card_advantage_samples :
  _estimate_card_advantage "draw a card, then this deals 2 damage" = 1%Z /\
  _estimate_card_advantage "search your library, then destroy it" = 0%Z /\
  _estimate_card_advantage "destroy target creature" = (-1)%Z /\
  _estimate_card_advantage "flying" = 0%Z.
Proof. repeat split; reflexivity. Qed.

End RewardFacts.

(** ** Gameplay zones *)

Module ZoneFacts.
Import PyStr PyStrFacts Py IR CardIRGenerator.

Lemma spell_type_false (type_line : string) :
  existsb (fun t => contains t type_line) ["instant"; "sorcery"] = false <->
  ~ Occurs "instant" type_line /\ ~ Occurs "sorcery" type_line.
Proof.
  rewrite any_contains_false. unfold AnyOccurs. split.
  - intros H. split; intros Ho; apply H; eexists; (split; [|exact Ho]);
      simpl; auto.
  - intros [Hi Hs] (x & [<-|[<-|[]]] & Ho); auto.
Qed.

(** C3: the zones start with "hand"; "battlefield" is present exactly for a
    type line with "creature", "artifact", "enchantment" or "planeswalker";
    "graveyard", "exile" and "library" are always present; "stack" comes
    last exactly when the type line has neither "instant" nor "sorcery".
    So "Instant" gets no "stack", and "Creature" gets "stack" and
    "battlefield". *)
Theorem zones_rule (data : Scryfall) :
  let type_line := lower (get (in_type_line data) "") in
  let zs := zones (_extract_gameplay_metadata data) in
  hd_error zs = Some "hand" /\
  (In "battlefield" zs <->
   AnyOccurs ["creature"; "artifact"; "enchantment"; "planeswalker"] type_line) /\
  In "graveyard" zs /\ In "exile" zs /\ In "library" zs /\
  (last zs "" = "stack" <->
   ~ Occurs "instant" type_line /\ ~ Occurs "sorcery" type_line) /\
  (In "stack" zs <->
   ~ Occurs "instant" type_line /\ ~ Occurs "sorcery" type_line) /\
  (in_type_line data = Some "Instant" -> ~ In "stack" zs) /\
  (in_type_line data = Some "Creature" ->
   In "stack" zs /\ In "battlefield" zs).
Proof.
  intros type_line zs. subst zs.
  unfold _extract_gameplay_metadata. fold type_line.
  cbv beta iota zeta delta [zones].
  pose proof (spell_type_false type_line) as Hspell.
  pose proof (any_contains_spec
                ["creature"; "artifact"; "enchantment"; "planeswalker"] type_line)
    as Hperm.
  fold (AnyOccurs ["creature"; "artifact"; "enchantment"; "planeswalker"] type_line)
    in Hperm.
  assert (Hinstant :
    in_type_line data = Some "Instant" ->
    existsb (fun t => contains t type_line) ["instant"; "sorcery"] = true).
  { intros E. subst type_line. rewrite E. reflexivity. }
  assert (Hcreature :
    in_type_line data = Some "Creature" ->
    existsb (fun t => contains t type_line) ["instant"; "sorcery"] = false /\
    existsb (fun t => contains t type_line)
      ["creature"; "artifact"; "enchantment"; "planeswalker"] = true).
  { intros E. subst type_line. rewrite E. split; reflexivity. }
  destruct (existsb (fun t => contains t type_line)
              ["creature"; "artifact"; "enchantment"; "planeswalker"]);
    destruct (existsb (fun t => contains t type_line) ["instant"; "sorcery"]);
    cbn [negb app hd_error last In];
    intuition (try discriminate; try congruence).
Qed.

Example zones_samples :
  zones (_extract_gameplay_metadata Samples.lightning_bolt)
    = ["hand"; "graveyard"; "exile"; "library"] /\
  zones (_extract_gameplay_metadata Samples.empty_card)
    = ["hand"; "graveyard"; "exile"; "library"; "stack"].
Proof. split; reflexivity. Qed.

End ZoneFacts.

(** ** The tag rules *)

Module TaggerFacts.
Import PyStr PyStrFacts Py IR StrategicTagger Invariants.

Lemma set_add_elem (s : pyset) (x y : string) :
  In y (set_add s x) <-> In y s \/ y = x.
Proof.
  unfold set_add. destruct (existsb (String.eqb x) s) eqn:E.
  - split; [auto | intros [H | ->]; [exact H |]].
    apply existsb_exists in E as (z & Hz & Hxz).
    apply String.eqb_eq in Hxz. now subst.
  - rewrite in_app_iff. simpl. intuition.
Qed.

Lemma set_add_nodup (s : pyset) (x : string) :
  NoDup s -> NoDup (set_add s x).
Proof.
  intros Hs. unfold set_add. destruct (existsb (String.eqb x) s) eqn:E.
  - exact Hs.
  - apply NoDup_app; [exact Hs | repeat constructor; intros [] |].
    intros y Hy [E' | []]. subst y.
    assert (existsb (String.eqb x) s = true); [| congruence].
    apply existsb_exists. exists x. split; [exact Hy | apply String.eqb_refl].
Qed.

Lemma set_update_elem (xs : list string) (s : pyset) (y : string) :
  In y (set_update s xs) <-> In y s \/ In y xs.
Proof.
  unfold set_update. revert s. induction xs as [|x xs IH]; intros s; simpl.
  - tauto.
  - rewrite IH, set_add_elem. intuition.
Qed.

Lemma set_update_nodup (xs : list string) (s : pyset) :
  NoDup s -> NoDup (set_update s xs).
Proof.
  unfold set_update. revert s. induction xs as [|x xs IH]; intros s Hs; simpl.
  - exact Hs.
  - apply IH. now apply set_add_nodup.
Qed.

Lemma grows_refl (st : tag_state) : grows st st.
Proof. repeat split; auto using incl_refl. Qed.

Lemma grows_trans (a b c : tag_state) : grows a b -> grows b c -> grows a c.
Proof.
  intros (H1 & H2 & H3) (K1 & K2 & K3).
  repeat split; eauto using incl_tran.
Qed.

Lemma add_tag_grows (st : tag_state) (category subcategory : string) (conf : Q) :
  grows st (add_tag st category subcategory conf).
Proof.
  unfold grows, add_tag; simpl. repeat split.
  - apply incl_appl, incl_refl.
  - intros y Hy. change (In y (set_update (snd st) [category; subcategory])).
    apply set_update_elem. now left.
  - intros H. now apply (set_update_nodup [category; subcategory]).
Qed.

Lemma add_tag_has (st : tag_state) (category subcategory : string) (conf : Q) :
  let st' := add_tag st category subcategory conf in
  In {| path := [category; subcategory]; confidence := conf |} (fst st') /\
  In category (snd st') /\ In subcategory (snd st').
Proof.
  unfold add_tag; simpl. repeat split.
  - apply in_or_app. right. now left.
  - change (In category (set_update (snd st) [category; subcategory])).
    apply set_update_elem. right. now left.
  - change (In subcategory (set_update (snd st) [category; subcategory])).
    apply set_update_elem. right. right. now left.
Qed.

Lemma pattern_loop_grows (patterns : list string) (text category subcategory : string)
  (st : tag_state) :
  grows st (pattern_loop patterns text category subcategory st).
Proof.
  induction patterns as [|p ps IH]; simpl.
  - apply grows_refl.
  - destruct (contains p text); [apply add_tag_grows | exact IH].
Qed.

Lemma apply_rule_grows (card : CardData) (text category : string)
  (st : tag_state) (rule : string * matcher) :
  grows st (apply_rule card text category st rule).
Proof.
  unfold apply_rule. destruct (snd rule) as [ps | f].
  - apply pattern_loop_grows.
  - destruct (f card); [apply add_tag_grows | apply grows_refl].
Qed.

Lemma subrules_grow (card : CardData) (text category : string)
  (rules : list (string * matcher)) (st : tag_state) :
  grows st (fold_left (apply_rule card text category) rules st).
Proof.
  revert st. induction rules as [|r rs IH]; intros st; simpl.
  - apply grows_refl.
  - eapply grows_trans; [apply apply_rule_grows | apply IH].
Qed.

Lemma apply_rules_grows (card : CardData) (text : string)
  (rules : list (string * list (string * matcher))) (st : tag_state) :
  grows st (apply_rules card text rules st).
Proof.
  unfold apply_rules. revert st. induction rules as [|c cs IH]; intros st; simpl.
  - apply grows_refl.
  - eapply grows_trans; [apply subrules_grow | apply IH].
Qed.

(** A predicate rule of the table that holds of the card leaves its tag,
    with confidence 0.8, and both its names. *)
Lemma predicate_rule_fires (card : CardData) (text : string)
  (rules : list (string * list (string * matcher)))
  (category subcategory : string) (subrules : list (string * matcher))
  (f : CardData -> bool) (st : tag_state) :
  In (category, subrules) rules ->
  In (subcategory, Predicate f) subrules ->
  f card = true ->
  let st' := apply_rules card text rules st in
  In {| path := [category; subcategory]; confidence := 8 # 10 |} (fst st') /\
  In category (snd st') /\ In subcategory (snd st').
Proof.
  intros Hcat Hsub Hf. cbv zeta.
  assert (Hsubs : forall rs s0, In (subcategory, Predicate f) rs ->
            let s1 := fold_left (apply_rule card text category) rs s0 in
            In {| path := [category; subcategory]; confidence := 8 # 10 |} (fst s1) /\
            In category (snd s1) /\ In subcategory (snd s1)).
  { induction rs as [|r rs IH]; intros s0 Hin; [destruct Hin |].
    simpl. destruct Hin as [-> | Hin]; [| now apply IH].
    destruct (subrules_grow card text category rs
                (apply_rule card text category s0 (subcategory, Predicate f)))
      as (G1 & G2 & _).
    unfold apply_rule in *. simpl in *. rewrite Hf in *.
    destruct (add_tag_has s0 category subcategory (8 # 10)) as (A1 & A2 & A3).
    repeat split; [apply G1 | apply G2 | apply G2]; assumption. }
  unfold apply_rules. revert st.
  induction rules as [|c cs IH]; intros st; [destruct Hcat |].
  simpl. destruct Hcat as [-> | Hcat]; [| now apply IH].
  simpl.
  destruct (apply_rules_grows card text cs
              (fold_left (apply_rule card text category) subrules st))
    as (G1 & G2 & _).
  destruct (Hsubs subrules st Hsub) as (A1 & A2 & A3).
  repeat split; [apply G1 | apply G2 | apply G2]; assumption.
Qed.

(** With no rules text, only the predicate rule can fire. *)
Lemma apply_rules_empty_text (card : CardData) :
  apply_rules card "" TAG_RULES ([], []) =
  if num_le (cmc (cd_card_metadata card)) 2
  then ([{| path := ["tempo"; "low_cost_interaction"]; confidence := 8 # 10 |}],
        ["tempo"; "low_cost_interaction"])
  else ([], []).
Proof.
  unfold apply_rules, TAG_RULES. cbn [fold_left fst snd apply_rule pattern_loop].
  cbn [contains prefix orb].
  destruct (num_le (cmc (cd_card_metadata card)) 2); reflexivity.
Qed.

Lemma flattened_nodup (rt : PyRuntime) (card : CardData) :
  NoDup (flattened_tags (generate_tags rt card)).
Proof.
  unfold generate_tags. cbv beta iota zeta delta [flattened_tags].
  eapply Permutation_NoDup; [apply Permutation_sym, list_of_set_perm |].
  apply (apply_rules_grows card (lower (oracle_text (cd_card_metadata card)))
           TAG_RULES ([], [])).
  constructor.
Qed.

End TaggerFacts.

(** ** The whole conversion *)

Module PipelineFacts.
Import PyStr PyStrFacts Py IR StrategicTagger CardIRGenerator TaggerFacts Samples.

Lemma in_list_of_set (rt : PyRuntime) (s : pyset) (x : string) :
  In x (list_of_set rt s) <-> In x s.
Proof.
  split; apply Permutation_in;
    [apply list_of_set_perm | apply Permutation_sym, list_of_set_perm].
Qed.

(** C10: a card of cmc at most 2 (0 when the key is absent) gets the tag
    [tempo, low_cost_interaction] with confidence 0.8, the flattened tags
    "tempo" and "low_cost_interaction" and the archetype hint "aggro",
    whatever its oracle text and type line. *)
Theorem low_cmc_card_tags (rt : PyRuntime) (now : string) (data : Scryfall) :
  num_le (get (in_cmc data) (Fin 0)) 2 = true ->
  let tags := strategic_tags (convert_scryfall_to_ir rt now data) in
  In {| path := ["tempo"; "low_cost_interaction"]; confidence := 8 # 10 |}
     (hierarchical_tags tags) /\
  In "tempo" (flattened_tags tags) /\
  In "low_cost_interaction" (flattened_tags tags) /\
  In "aggro" (archetype_hints tags).
Proof.
  intros Hcmc tags. subst tags.
  unfold convert_scryfall_to_ir, generate_tags.
  cbv beta iota zeta delta [strategic_tags hierarchical_tags flattened_tags
                            archetype_hints].
  set (card := {| cd_card_metadata := _extract_metadata data;
                  cd_parsed_abilities := _parse_abilities data |}).
  assert (Hc : num_le (cmc (cd_card_metadata card)) 2 = true) by exact Hcmc.
  destruct (predicate_rule_fires card
              (lower (oracle_text (cd_card_metadata card))) TAG_RULES
              "tempo" "low_cost_interaction"
              [ ("low_cost_interaction",
                  Predicate (fun card => num_le (cmc (cd_card_metadata card)) 2));
                ("bounce", Substrings ["return"; "bounce"]) ]
              (fun card => num_le (cmc (cd_card_metadata card)) 2)
              ([], [])) as (H1 & H2 & H3).
  - unfold TAG_RULES. right. left. reflexivity.
  - left. reflexivity.
  - exact Hc.
  - repeat split.
    + exact H1.
    + apply in_list_of_set. exact H2.
    + apply in_list_of_set. exact H3.
    + unfold _generate_archetype_hints. rewrite Hc.
      cbv beta iota zeta. cbn [app].
      repeat match goal with
             | |- context [if ?b then _ else _] => destruct b
             end; cbn [app In]; auto.
Qed.

Lemma low_cmc_card_tags_witness :
  num_le (get (in_cmc empty_card) (Fin 0)) 2 = true /\
  In {| path := ["tempo"; "low_cost_interaction"]; confidence := 8 # 10 |}
     (hierarchical_tags
        (strategic_tags (convert_scryfall_to_ir runtime_b "" empty_card))) /\
  In "tempo"
     (flattened_tags
        (strategic_tags (convert_scryfall_to_ir runtime_b "" empty_card))) /\
  In "low_cost_interaction"
     (flattened_tags
        (strategic_tags (convert_scryfall_to_ir runtime_b "" empty_card))) /\
  In "aggro"
     (archetype_hints
        (strategic_tags (convert_scryfall_to_ir runtime_b "" empty_card))).
Proof.
  split; [reflexivity |].
  exact (low_cmc_card_tags runtime_b "" empty_card eq_refl).
Defined.

(** C8: a record whose oracle text is absent or empty has no parsed ability,
    and its tags can only come from the metadata predicate: the one tag
    [tempo, low_cost_interaction] at confidence 0.8 when cmc is at most 2,
    and nothing otherwise; no substring rule contributes. *)
Theorem empty_oracle_text_tags (rt : PyRuntime) (now : string) (data : Scryfall) :
  in_oracle_text data = None \/ in_oracle_text data = Some "" ->
  let ir := convert_scryfall_to_ir rt now data in
  let low_cost := num_le (get (in_cmc data) (Fin 0)) 2 in
  parsed_abilities ir = [] /\
  hierarchical_tags (strategic_tags ir) =
    (if low_cost
     then [{| path := ["tempo"; "low_cost_interaction"]; confidence := 8 # 10 |}]
     else []) /\
  (forall tag, In tag (flattened_tags (strategic_tags ir)) ->
     low_cost = true /\ (tag = "tempo" \/ tag = "low_cost_interaction")) /\
  (forall category subcategory patterns subrules,
     In (category, subrules) TAG_RULES ->
     In (subcategory, Substrings patterns) subrules ->
     ~ In subcategory (flattened_tags (strategic_tags ir)) /\
     ~ In {| path := [category; subcategory]; confidence := 9 # 10 |}
          (hierarchical_tags (strategic_tags ir))).
Proof.
  intros Htext ir low_cost.
  assert (Ho : get (in_oracle_text data) "" = "")
    by (destruct Htext as [E | E]; rewrite E; reflexivity).
  assert (Hpa : parsed_abilities ir = []).
  { subst ir. unfold convert_scryfall_to_ir, _parse_abilities.
    cbv beta iota zeta delta [parsed_abilities]. now rewrite Ho. }
  set (st := if low_cost
             then ([{| path := ["tempo"; "low_cost_interaction"];
                       confidence := 8 # 10 |}],
                   ["tempo"; "low_cost_interaction"])
             else ([], [])).
  assert (Hst : hierarchical_tags (strategic_tags ir) = fst st /\
                flattened_tags (strategic_tags ir) = list_of_set rt (snd st)).
  { subst ir st low_cost. unfold convert_scryfall_to_ir, generate_tags.
    cbv beta iota zeta delta [strategic_tags hierarchical_tags flattened_tags].
    cbv beta iota zeta delta [_extract_metadata cd_card_metadata oracle_text].
    rewrite Ho. cbn [lower].
    rewrite apply_rules_empty_text. split; reflexivity. }
  destruct Hst as [Hh Hf]. subst st.
  assert (Hflat : forall tag, In tag (flattened_tags (strategic_tags ir)) ->
            low_cost = true /\ (tag = "tempo" \/ tag = "low_cost_interaction")).
  { intros tag Hin. rewrite Hf in Hin. apply in_list_of_set in Hin.
    destruct low_cost; simpl in Hin; [| contradiction].
    split; [reflexivity |]. destruct Hin as [<- | [<- | []]]; auto. }
  split; [exact Hpa |].
  split; [rewrite Hh; now destruct low_cost |].
  split; [exact Hflat |].
  intros category subcategory patterns subrules Hcat Hsub. split.
  - intros Hin. apply Hflat in Hin as [_ Hin].
    unfold TAG_RULES in Hcat.
    repeat (destruct Hcat as [Hcat | Hcat];
            [injection Hcat as <- <-;
             repeat (destruct Hsub as [Hsub | Hsub];
                     [try discriminate; injection Hsub as <- _;
                      destruct Hin; discriminate |]);
             destruct Hsub |]).
    destruct Hcat.
  - rewrite Hh. destruct low_cost; simpl; [| tauto].
    intros [E | []]. discriminate.
Qed.

Lemma empty_oracle_text_tags_witness :
  (in_oracle_text empty_card = None \/ in_oracle_text empty_card = Some "") /\
  parsed_abilities (convert_scryfall_to_ir runtime_a "" empty_card) = [] /\
  hierarchical_tags (strategic_tags (convert_scryfall_to_ir runtime_a "" empty_card))
    = [{| path := ["tempo"; "low_cost_interaction"]; confidence := 8 # 10 |}].
Proof.
  split; [left; reflexivity |].
  destruct (empty_oracle_text_tags runtime_a "" empty_card (or_introl eq_refl))
    as (H1 & H2 & _).
  split; [exact H1 | exact H2].
Defined.

(** C2, as written, fails on a record without a name: its identifier is
    "unknown_main_effect", not "_main_effect". *)
Lemma ability_id_absent_name_counterexample :
  get (in_oracle_text nameless_card) "" <> "" /\
  map ability_id (_parse_abilities nameless_card) = ["unknown_main_effect"] /\
  ~ ability_id_from_name_or_empty nameless_card.
Proof.
  split; [discriminate |]. split; [reflexivity |].
  intros H. destruct H as (ability & Hp & Hid); [discriminate |].
  vm_compute in Hp. injection Hp as <-. vm_compute in Hid. discriminate.
Qed.

(** C2 (amended): for a record with non-empty oracle text there is exactly
    one parsed ability, and its ability_id is the lowercased name with every
    space replaced by an underscore, followed by "_main_effect", where an
    absent name counts as "unknown". *)
Theorem ability_id_from_name (rt : PyRuntime) (now : string) (data : Scryfall) :
  get (in_oracle_text data) "" <> "" ->
  exists ability,
    parsed_abilities (convert_scryfall_to_ir rt now data) = [ability] /\
    ability_id ability =
      replace_char " " "_" (lower (get (in_name data) "unknown")) ++ "_main_effect" /\
    (forall name, in_name data = Some name ->
       ability_id ability = replace_char " " "_" (lower name) ++ "_main_effect") /\
    (in_name data = None -> ability_id ability = "unknown_main_effect").
Proof.
  intros Htext.
  unfold convert_scryfall_to_ir, _parse_abilities.
  cbv beta iota zeta delta [parsed_abilities].
  destruct (String.eqb (get (in_oracle_text data) "") "") eqn:E.
  - apply String.eqb_eq in E. contradiction.
  - eexists. split; [reflexivity |].
    unfold AbilityParser.parse_ability. cbv beta iota zeta delta [ability_id].
    split; [reflexivity |].
    split; [intros name Hn | intros Hn]; rewrite Hn; reflexivity.
Qed.

Lemma ability_id_from_name_witness :
  get (in_oracle_text lightning_bolt) "" <> "" /\
  exists ability,
    parsed_abilities (convert_scryfall_to_ir runtime_a "" lightning_bolt) = [ability] /\
    ability_id ability = "lightning_bolt_main_effect".
Proof.
  assert (H : get (in_oracle_text lightning_bolt) "" <> "") by discriminate.
  split; [exact H |].
  destruct (ability_id_from_name runtime_a "" lightning_bolt H)
    as (ability & Hp & Hid & _).
  exists ability. split; [exact Hp |]. rewrite Hid. reflexivity.
Defined.

(** C1: converting the Lightning Bolt record yields one parsed ability, of
    type "static", with no cost, no trigger and the single effect
    [damage, targets "any target", value 3]; the flattened tags include
    "interaction" and "removal"; the archetype hints include "aggro" and
    not "control"; immediate_impact is true and card_advantage is -1; the
    commander legality is "legal" and can_be_commander is false. *)
Theorem lightning_bolt_conversion (rt : PyRuntime) (now : string) :
  let ir := convert_scryfall_to_ir rt now lightning_bolt in
  (exists ability,
     parsed_abilities ir = [ability] /\
     ability_type ability = "static" /\
     costs (parsed_components ability) = [] /\
     triggers (parsed_components ability) = [] /\
     effects (parsed_components ability) =
       [{| effect_type := "damage"; targets := ["any target"]; effect_value := 3 |}]) /\
  In "interaction" (flattened_tags (strategic_tags ir)) /\
  In "removal" (flattened_tags (strategic_tags ir)) /\
  In "aggro" (archetype_hints (strategic_tags ir)) /\
  ~ In "control" (archetype_hints (strategic_tags ir)) /\
  immediate_impact (reward_hints (strategic_tags ir)) = true /\
  card_advantage (reward_hints (strategic_tags ir)) = (-1)%Z /\
  commander (format_legality ir) = "legal" /\
  can_be_commander (format_legality ir) = false.
Proof.
  intros ir.
  assert (Hset : flattened_tags (strategic_tags ir) =
                 list_of_set rt ["interaction"; "removal"; "tempo"; "low_cost_interaction"])
    by (vm_compute; reflexivity).
  assert (Hhints : archetype_hints (strategic_tags ir) = ["aggro"; "tempo"])
    by (vm_compute; reflexivity).
  split.
  - eexists. split; [vm_compute; reflexivity |].
    repeat split; vm_compute; reflexivity.
  - rewrite Hset, Hhints, !in_list_of_set.
    repeat split; try (vm_compute; reflexivity); simpl; auto.
    intros [H | [H | []]]; discriminate.
Qed.

(** C9, as written, fails across interpreter processes: [flattened_tags] is
    [list(a_set)], and two processes may enumerate the four tags of
    Lightning Bolt in different orders. *)
Lemma flattened_order_counterexample :
  flattened_tags (strategic_tags (convert_scryfall_to_ir runtime_a "" lightning_bolt))
    = ["interaction"; "removal"; "tempo"; "low_cost_interaction"] /\
  flattened_tags (strategic_tags (convert_scryfall_to_ir runtime_b "" lightning_bolt))
    = ["low_cost_interaction"; "tempo"; "removal"; "interaction"] /\
  ~ same_output_everywhere lightning_bolt.
Proof.
  split; [reflexivity |]. split; [reflexivity |].
  intros H. specialize (H runtime_a runtime_b "" "").
  apply (f_equal (fun ir => flattened_tags (strategic_tags ir))) in H.
  vm_compute in H. discriminate.
Qed.

(** C9 (amended): two invocations on one record in the same interpreter
    process agree on every field but [generated_at], list orders included;
    two invocations in different processes agree on every field but
    [generated_at] and the order of [flattened_tags], which holds the same
    tags, each once. *)
Theorem conversion_deterministic (rt1 rt2 : PyRuntime) (now1 now2 : string)
  (data : Scryfall) :
  let a := convert_scryfall_to_ir rt1 now1 data in
  let a' := convert_scryfall_to_ir rt1 now2 data in
  let b := convert_scryfall_to_ir rt2 now2 data in
  without_timestamp a = without_timestamp a' /\
  ir_version a = ir_version b /\
  card_metadata a = card_metadata b /\
  parsed_abilities a = parsed_abilities b /\
  hierarchical_tags (strategic_tags a) = hierarchical_tags (strategic_tags b) /\
  archetype_hints (strategic_tags a) = archetype_hints (strategic_tags b) /\
  reward_hints (strategic_tags a) = reward_hints (strategic_tags b) /\
  format_legality a = format_legality b /\
  gameplay_metadata a = gameplay_metadata b /\
  Permutation (flattened_tags (strategic_tags a)) (flattened_tags (strategic_tags b)) /\
  NoDup (flattened_tags (strategic_tags a)).
Proof.
  intros a a' b. repeat split.
  - subst a b. unfold convert_scryfall_to_ir, generate_tags.
    cbv beta iota zeta delta [strategic_tags flattened_tags].
    eapply Permutation_trans;
      [apply list_of_set_perm | apply Permutation_sym, list_of_set_perm].
  - apply flattened_nodup.
Qed.

End PipelineFacts.

(** ** Facts about the matcher *)

Module ReFacts.
Import PyStr PyStrFacts Re.

Lemma in_down_to_one (n k : nat) : In k (down_to_one n) <-> 1 <= k <= n.
Proof.
  induction n as [|n IH]; simpl.
  - split; [intros [] | lia].
  - rewrite IH. split; [intros [<- | H]; lia | intros H].
    destruct (Nat.eq_dec k (S n)); [left; lia | right; lia].
Qed.

Lemma run_le_length (p : ascii -> bool) (s : string) : run p s <= length s.
Proof.
  induction s as [|c s IH]; simpl; [lia |]. destruct (p c); simpl; lia.
Qed.

(** the first [n] characters are in the class exactly when [n] is within
    the run *)
Lemma run_prefix (p : ascii -> bool) (s : string) (n : nat) :
  n <= run p s <-> n <= length s /\ forall_chars p (take n s) = true.
Proof.
  revert n. induction s as [|c s IH]; intros n; simpl.
  - destruct n; simpl; split; try lia; auto.
  - destruct n as [|n]; simpl.
    + split; [auto with arith | lia].
    + destruct (p c) eqn:E; simpl.
      * rewrite <- Nat.succ_le_mono, IH. rewrite <- Nat.succ_le_mono. tauto.
      * split; [lia | intros [_ H]; discriminate].
Qed.

(** inside the run every character is in the class *)
Lemma run_inside (p : ascii -> bool) (s : string) (k : nat) :
  k < run p s -> exists c, head_char (drop k s) = Some c /\ p c = true.
Proof.
  revert k. induction s as [|c s IH]; intros k; simpl; [lia |].
  destruct (p c) eqn:E; [| lia]. destruct k as [|k]; simpl.
  - intros _. now exists c.
  - intros H. apply IH. lia.
Qed.

Lemma prefix_cons (c d : ascii) (w s : string) :
  prefix (String c w) (String d s) = Ascii.eqb c d && prefix w s.
Proof.
  simpl. destruct (ascii_dec c d) as [-> | Hne].
  - now rewrite Ascii.eqb_refl.
  - apply Ascii.eqb_neq in Hne. now rewrite Hne.
Qed.

Lemma ends_chr (c : ascii) (prev : option ascii) (rest : string) :
  ends (chr c) prev rest =
  if match head_char rest with Some d => Ascii.eqb c d | None => false end
  then [(1, [])] else [].
Proof. destruct rest; reflexivity. Qed.

Lemma ends_cat (r1 r2 : regex) (prev : option ascii) (rest : string) :
  ends (Cat r1 r2) prev rest =
  flat_map
    (fun e1 =>
       map (fun e2 => (fst e1 + fst e2, (snd e1 ++ snd e2)%list))
           (ends r2 (prev_after prev rest (fst e1)) (drop (fst e1) rest)))
    (ends r1 prev rest).
Proof. reflexivity. Qed.

(** a literal matches in one way, when it is a prefix of the text ahead *)
Lemma ends_lit (w : string) (prev : option ascii) (rest : string) :
  ends (lit w) prev rest = if prefix w rest then [(length w, [])] else [].
Proof.
  revert prev rest. induction w as [|c w IH]; intros prev rest.
  - destruct rest; reflexivity.
  - destruct rest as [|d rest]; [reflexivity |].
    rewrite prefix_cons. cbn [lit ends chr].
    destruct (Ascii.eqb c d); [| reflexivity].
    cbn [flat_map fst snd prev_after get drop andb]. rewrite IH.
    destruct (prefix w rest); reflexivity.
Qed.

Lemma prev_after_cons (prev : option ascii) (c : ascii) (rest : string) (k : nat) :
  k <= length rest ->
  prev_after prev (String c rest) (S k) = prev_after (Some c) rest k.
Proof.
  destruct k as [|k]; [reflexivity |]. intros H. cbn [prev_after get].
  destruct (get k rest) eqn:E; [reflexivity |].
  exfalso. revert k H E. clear. induction rest as [|d rest IH]; intros k H E.
  - simpl in H. lia.
  - destruct k as [|k]; [discriminate |]. simpl in H, E.
    apply (IH k); [lia | exact E].
Qed.

(** [re.search] finds nothing exactly when no offset has a match *)
Lemma search_from_none (r : regex) (prev : option ascii) (rest : string) (pos : nat) :
  search_from r prev rest pos = None <->
  forall k, k <= length rest ->
    ends r (prev_after prev rest k) (drop k rest) = [].
Proof.
  revert prev pos. induction rest as [|c rest IH]; intros prev pos;
    cbn [search_from]; unfold match_here.
  - destruct (ends r prev "") eqn:E.
    + split; [| reflexivity]. intros _ k Hk. simpl in Hk.
      assert (k = 0) by lia. subst k. exact E.
    + split; [discriminate |]. intros H. specialize (H 0 (Nat.le_0_l _)).
      simpl in H. congruence.
  - destruct (ends r prev (String c rest)) eqn:E.
    + rewrite IH. split.
      * intros H [|k] Hk; [exact E |]. simpl in Hk.
        rewrite prev_after_cons by lia. apply H. lia.
      * intros H k Hk. specialize (H (S k)).
        rewrite prev_after_cons in H by lia. apply H. simpl. lia.
    + split; [discriminate |]. intros H. specialize (H 0 (Nat.le_0_l _)).
      simpl in H. congruence.
Qed.

(** what [re.search] finds is the first way of matching at the leftmost
    offset that has one *)
Lemma search_from_some (r : regex) (prev : option ascii) (rest : string)
  (pos : nat) (m : match_obj) :
  search_from r prev rest pos = Some m ->
  exists k e es,
    k <= length rest /\
    ends r (prev_after prev rest k) (drop k rest) = e :: es /\
    (forall j, j < k -> ends r (prev_after prev rest j) (drop j rest) = []) /\
    m = MatchObj (pos + k) (take (fst e) (drop k rest)) (snd e).
Proof.
  revert prev pos. induction rest as [|c rest IH]; intros prev pos;
    cbn [search_from]; unfold match_here.
  - destruct (ends r prev "") as [|e es] eqn:E; [discriminate |].
    intros H. injection H as <-. exists 0, e, es.
    rewrite Nat.add_0_r. repeat split; auto. intros j Hj. lia.
  - destruct (ends r prev (String c rest)) as [|e es] eqn:E.
    + intros H. apply IH in H as (k & e & es & Hk & He & Hbefore & ->).
      exists (S k), e, es. rewrite prev_after_cons by lia.
      repeat split.
      * simpl. lia.
      * exact He.
      * intros [|j] Hj; [exact E |].
        rewrite prev_after_cons by lia. apply Hbefore. lia.
      * cbn [drop]. f_equal. lia.
    + intros H. injection H as <-. exists 0, e, es.
      rewrite Nat.add_0_r. repeat split; auto.
      * apply Nat.le_0_l.
      * intros j Hj. lia.
Qed.

(** the first way of matching among [f R, f (R-1), ..., f 0] *)
Lemma first_down {B : Type} (f : nat -> list B) (R : nat) (e : B) (es : list B) :
  flat_map f (down_to_zero R) = e :: es ->
  exists n, n <= R /\ hd_error (f n) = Some e /\
            forall n', n < n' <= R -> f n' = [].
Proof.
  induction R as [|R IH]; cbn [down_to_zero flat_map].
  - rewrite List.app_nil_r. intros H. exists 0. rewrite H.
    repeat split; auto. intros n' Hn'. lia.
  - destruct (f (S R)) as [|e' es'] eqn:E; cbn [app].
    + intros H. apply IH in H as (n & Hn & Hhd & Hafter).
      exists n. repeat split; auto.
      intros n' Hn'. destruct (Nat.eq_dec n' (S R)) as [-> | Hne];
        [exact E | apply Hafter; lia].
    + intros H. injection H as <- _. exists (S R). rewrite E.
      repeat split; auto. intros n' Hn'. lia.
Qed.

Lemma none_down {B : Type} (f : nat -> list B) (R : nat) :
  flat_map f (down_to_zero R) = [] <-> forall n, n <= R -> f n = [].
Proof.
  induction R as [|R IH]; cbn [down_to_zero flat_map].
  - rewrite List.app_nil_r. split.
    + intros H n Hn. assert (n = 0) by lia. now subst.
    + intros H. apply H. lia.
  - split.
    + intros H. apply List.app_eq_nil in H as [H1 H2].
      intros n Hn. destruct (Nat.eq_dec n (S R)) as [-> | Hne];
        [exact H1 | apply IH; [exact H2 | lia]].
    + intros H. rewrite (H (S R)) by lia. apply IH. intros n Hn. apply H. lia.
Qed.

(** a phrase, a stretch of one line, a phrase: the ways of matching *)
Lemma ends_gap (pre suf : string) (prev : option ascii) (rest : string) :
  ends (Cat (lit pre) (Cat (StarG dot) (lit suf))) prev rest =
  if prefix pre rest
  then flat_map
         (fun n => if prefix suf (drop n (drop (length pre) rest))
                   then [(length pre + (n + length suf), [])] else [])
         (down_to_zero (run dot (drop (length pre) rest)))
  else [].
Proof.
  cbn [ends]. rewrite ends_lit. destruct (prefix pre rest); [| reflexivity].
  cbn [flat_map fst snd]. rewrite List.app_nil_r.
  generalize (down_to_zero (run dot (drop (length pre) rest))) as l.
  generalize (prev_after prev rest (length pre)) as prev1.
  generalize (drop (length pre) rest) as rest1.
  intros rest1 prev1 l. induction l as [|n l IH]; [reflexivity |].
  cbn [map flat_map fst snd]. rewrite List.map_app, IH, ends_lit.
  destruct (prefix suf (drop n rest1)); reflexivity.
Qed.

End ReFacts.

(** ** Trigger extraction *)

Module TriggerFacts.
Import PyStr PyStrFacts Re ReFacts IR AbilityParser Occurrences.

Lemma gap_instance (pre suf rest : string) (n : nat) :
  (prefix pre rest = true /\
   n <= run dot (drop (length pre) rest) /\
   prefix suf (drop n (drop (length pre) rest)) = true) <->
  exists mid b,
    rest = (pre ++ mid ++ suf) ++ b /\
    forall_chars dot mid = true /\ length mid = n.
Proof.
  split.
  - intros (Hpre & Hrun & Hsuf).
    apply prefix_spec in Hpre as [r1 ->].
    rewrite drop_app_length in Hrun, Hsuf.
    apply run_prefix in Hrun as [Hlen Hmid].
    apply prefix_spec in Hsuf as [b Hb].
    exists (take n r1), b. repeat split.
    + rewrite !app_assoc, <- Hb, take_drop. reflexivity.
    + exact Hmid.
    + now apply length_take.
  - intros (mid & b & -> & Hmid & <-).
    rewrite !app_assoc. rewrite prefix_app, drop_app_length.
    repeat split.
    + apply run_prefix. rewrite take_app_length, length_app. split; [lia | exact Hmid].
    + rewrite drop_app_length. apply prefix_app.
Qed.

(** no way of matching ahead: no instance starts here *)
Lemma template_ends_nil (t : template) (prev : option ascii) (rest : string) :
  ends (template_regex t) prev rest = [] ->
  forall span b, Instance t span -> rest <> span ++ b.
Proof.
  intros He span b Hi ->. destruct t as [w | pre suf]; cbn [template_regex Instance] in *.
  - subst span. rewrite ends_lit, prefix_app in He. discriminate.
  - destruct Hi as (mid & -> & Hmid).
    rewrite ends_gap in He.
    assert (G : prefix pre ((pre ++ mid ++ suf) ++ b) = true /\
                length mid <= run dot (drop (length pre) ((pre ++ mid ++ suf) ++ b)) /\
                prefix suf (drop (length mid)
                              (drop (length pre) ((pre ++ mid ++ suf) ++ b))) = true).
    { apply gap_instance. exists mid, b. auto. }
    destruct G as (G1 & G2 & G3). rewrite G1 in He.
    rewrite none_down in He. specialize (He _ G2). cbv beta in He.
    rewrite G3 in He. discriminate.
Qed.

(** the first way of matching ahead is the longest instance that starts here *)
Lemma template_ends_head (t : template) (prev : option ascii) (rest : string)
  (e : nat * list string) (es : list (nat * list string)) :
  ends (template_regex t) prev rest = e :: es ->
  Instance t (take (fst e) rest) /\
  length (take (fst e) rest) = fst e /\
  forall span b, Instance t span -> rest = span ++ b -> length span <= fst e.
Proof.
  intros He. destruct t as [w | pre suf]; cbn [template_regex Instance] in *.
  - rewrite ends_lit in He. destruct (prefix w rest) eqn:Hp; [| discriminate].
    injection He as <- _. cbn [fst].
    apply prefix_spec in Hp as [b ->]. rewrite take_app_length.
    repeat split. intros span b' -> _. lia.
  - rewrite ends_gap in He. destruct (prefix pre rest) eqn:Hp; [| discriminate].
    apply first_down in He as (n & Hn & Hhd & Hmax).
    destruct (prefix suf (drop n (drop (length pre) rest))) eqn:Hs;
      [| discriminate].
    injection Hhd as <-. cbn [fst].
    destruct (proj1 (gap_instance pre suf rest n)) as (mid & b & Hrest & Hmid & Hlen);
      [auto |].
    assert (Hspan : length (pre ++ mid ++ suf) = length pre + (n + length suf)).
    { rewrite !length_app. lia. }
    assert (Htake : take (length pre + (n + length suf)) rest = pre ++ mid ++ suf).
    { rewrite <- Hspan. rewrite Hrest at 1. apply take_app_length. }
    rewrite Htake. split; [exists mid; auto |]. split; [exact Hspan |].
    intros span b' (mid' & -> & Hmid') Hrest'.
    destruct (proj2 (gap_instance pre suf rest (length mid'))) as (_ & K2 & K3).
    { exists mid', b'. auto. }
    destruct (Nat.le_gt_cases (length mid') n) as [Hle | Hgt].
    + rewrite !length_app. lia.
    + specialize (Hmax (length mid') (conj Hgt K2)). cbv beta in Hmax.
      rewrite K3 in Hmax. discriminate.
Qed.

(** [re.search] on a template: nothing when the text has no instance, the
    first occurrence otherwise *)
Lemma search_template (t : template) (text : string) :
  match search (template_regex t) text with
  | None => forall i span, ~ InstanceAt t text i span
  | Some m => FirstInstance t text (m_group0 m)
  end.
Proof.
  unfold search. destruct (search_from (template_regex t) None text 0) as [m|] eqn:E.
  - apply search_from_some in E as (k & e & es & Hk & He & Hbefore & ->).
    cbn [m_group0]. exists k.
    destruct (template_ends_head _ _ _ _ _ He) as (Hinst & Hlen & Hlongest).
    split.
    + split; [exact Hinst |].
      exists (take k text), (drop (fst e) (drop k text)). split.
      * rewrite take_drop, take_drop. reflexivity.
      * now apply length_take.
    + intros j span' (Hinst' & a & b & Htext & Hj).
      assert (Hdrop : drop j text = span' ++ b).
      { rewrite Htext, <- Hj. apply drop_app_length. }
      destruct (Nat.lt_trichotomy j k) as [Hlt | [-> | Hgt]].
      * exfalso. eapply template_ends_nil;
          [apply (Hbefore j Hlt) | exact Hinst' | exact Hdrop].
      * right. split; [reflexivity |]. rewrite Hlen.
        eapply Hlongest; eauto.
      * now left.
  - intros i span (Hinst & a & b & Htext & Hi).
    rewrite search_from_none in E.
    assert (Hdrop : drop i text = span ++ b).
    { rewrite Htext, <- Hi. apply drop_app_length. }
    eapply template_ends_nil; [apply (E i) | exact Hinst | exact Hdrop].
    rewrite Htext, <- Hi, length_app. lia.
Qed.

Lemma search_contribution (t : template) (label text : string) :
  Contribution t label text
    (match search (template_regex t) text with
     | Some m => [{| condition := m_group0 m; timing := label |}]
     | None => []
     end).
Proof.
  pose proof (search_template t text) as H. unfold Contribution.
  destruct (search (template_regex t) text) as [m|].
  - right. exists (m_group0 m). auto.
  - left. auto.
Qed.

(** C6: [_extract_triggers] tries the three templates one after the other
    on the lowercased text; a template with no instance in the text adds
    nothing, and one with an instance adds exactly one entry, whose
    condition is the span of its first occurrence and whose timing is its
    label; so there are at most three entries. *)
Theorem extract_triggers_templates (text : string) :
  exists l1 l2 l3,
    _extract_triggers text = (l1 ++ l2 ++ l3)%list /\
    Contribution (Gap "when " " enters") "when" (lower text) l1 /\
    Contribution (Gap "whenever " " dies") "whenever" (lower text) l2 /\
    Contribution (Literal "at the beginning") "at" (lower text) l3 /\
    List.length l1 <= 1 /\ List.length l2 <= 1 /\ List.length l3 <= 1 /\
    List.length (_extract_triggers text) <= 3.
Proof.
  pose proof (search_contribution (Gap "when " " enters") "when" (lower text)) as C1.
  pose proof (search_contribution (Gap "whenever " " dies") "whenever" (lower text)) as C2.
  pose proof (search_contribution (Literal "at the beginning") "at" (lower text)) as C3.
  unfold _extract_triggers, trigger_patterns. cbn [fold_left fst snd].
  change when_enters with (template_regex (Gap "when " " enters")).
  change whenever_dies with (template_regex (Gap "whenever " " dies")).
  change at_the_beginning with (template_regex (Literal "at the beginning")).
  destruct (search (template_regex (Gap "when " " enters")) (lower text)) as [m1|];
  destruct (search (template_regex (Gap "whenever " " dies")) (lower text)) as [m2|];
  destruct (search (template_regex (Literal "at the beginning")) (lower text)) as [m3|];
  (eexists; eexists; eexists;
   split; [| split; [exact C1 | split; [exact C2 | split; [exact C3 |]]]];
   [reflexivity | cbn [List.length app]; lia]).
Qed.

Example extract_triggers_sample :
  _extract_triggers
    "When X enters, when Y enters. At the beginning of combat and at the beginning of your end step"
  = [ {| condition := "when x enters, when y enters"; timing := "when" |};
      {| condition := "at the beginning"; timing := "at" |} ].
Proof. vm_compute. reflexivity. Qed.

End TriggerFacts.

(** ** Cost extraction: mana symbols *)

Module ManaFacts.
Import PyStr PyStrFacts Re ReFacts IR AbilityParser Occurrences.

Lemma close_inside_run (r1 : string) (k : nat) :
  k < run mana_class r1 -> close_at r1 k = false.
Proof.
  intros H. unfold close_at.
  destruct (run_inside mana_class r1 k H) as (c & -> & Hc).
  destruct (Ascii.eqb_spec "}"%char c) as [<- | _]; [discriminate | reflexivity].
Qed.

(** the symbol and its closing brace: tried for every length of the run,
    longest first *)
Lemma ends_symbol_close (prev : option ascii) (r1 : string) :
  ends (Cat (Grp (PlusG mana_class)) (chr "}")) prev r1 =
  flat_map (fun k => if close_at r1 k then [(k + 1, [take k r1])] else [])
           (down_to_one (run mana_class r1)).
Proof.
  rewrite ends_cat.
  change (ends (Grp (PlusG mana_class)) prev r1)
    with (map (fun e : nat * list string => (fst e, take (fst e) r1 :: snd e))
            (map (fun n : nat => (n, @nil string)) (down_to_one (run mana_class r1)))).
  induction (down_to_one (run mana_class r1)) as [|k l IH]; [reflexivity |].
  cbn [map flat_map fst snd]. rewrite IH, ends_chr. unfold close_at.
  destruct (head_char (drop k r1)) as [d|]; [| reflexivity].
  destruct (Ascii.eqb "}" d); reflexivity.
Qed.

Lemma close_only_at_run (r1 : string) :
  flat_map (fun k => if close_at r1 k then [(k + 1, [take k r1])] else [])
           (down_to_one (run mana_class r1)) =
  if Nat.leb 1 (run mana_class r1) && close_at r1 (run mana_class r1)
  then [(run mana_class r1 + 1, [take (run mana_class r1) r1])] else [].
Proof.
  destruct (run mana_class r1) as [|n] eqn:Hrun; [reflexivity |].
  cbn [down_to_one flat_map Nat.leb andb].
  assert (H : flat_map
                (fun k => if close_at r1 k then [(k + 1, [take k r1])] else [])
                (down_to_one n) = []).
  { assert (Hl : forall k, In k (down_to_one n) -> k < run mana_class r1).
    { intros k Hk. apply in_down_to_one in Hk. lia. }
    induction (down_to_one n) as [|k l IH]; [reflexivity |].
    cbn [flat_map]. rewrite IH by (intros; apply Hl; now right).
    rewrite close_inside_run by (apply Hl; now left). reflexivity. }
  rewrite H, List.app_nil_r. reflexivity.
Qed.

(** [mana_pattern] matches ahead in at most one way: on the symbol there *)
Lemma ends_mana (prev : option ascii) (rest : string) :
  ends mana_pattern prev rest =
  match token_here rest with
  | Some sym => [(length sym + 2, [sym])]
  | None => []
  end.
Proof.
  unfold mana_pattern, token_here. rewrite ends_cat, ends_chr.
  destruct rest as [|c r1]; [reflexivity |]. cbn [head_char].
  destruct (Ascii.eqb "{" c); [| reflexivity].
  cbn [flat_map fst snd drop andb]. rewrite List.app_nil_r.
  rewrite ends_symbol_close, close_only_at_run. fold (close_at r1 (run mana_class r1)).
  destruct (Nat.leb 1 (run mana_class r1) && close_at r1 (run mana_class r1));
    [| reflexivity].
  cbn [map fst snd app]. rewrite length_take by apply run_le_length.
  replace (1 + (run mana_class r1 + 1)) with (run mana_class r1 + 2) by lia.
  reflexivity.
Qed.

Lemma run_app_stop (p : ascii -> bool) (sym : string) (c : ascii) (b : string) :
  forall_chars p sym = true -> p c = false ->
  run p (sym ++ String c b) = length sym.
Proof.
  intros Hsym Hc. induction sym as [|x sym IH]; simpl in *.
  - now rewrite Hc.
  - apply andb_true_iff in Hsym as [Hx Hsym]. rewrite Hx. f_equal. now apply IH.
Qed.

Lemma head_char_drop (s : string) (k : nat) (c : ascii) :
  head_char (drop k s) = Some c -> exists b, drop k s = String c b.
Proof. destruct (drop k s) as [|d b]; [discriminate |]. intros H. injection H as ->. eauto. Qed.

(** [token_here] finds [sym] exactly when the text ahead starts with
    [{sym}], [sym] being a non-empty string of mana characters *)
Lemma token_here_spec (rest sym : string) :
  token_here rest = Some sym <->
  sym <> "" /\ forall_chars mana_class sym = true /\
  exists b, rest = "{" ++ sym ++ "}" ++ b.
Proof.
  unfold token_here. split.
  - destruct rest as [|c r1]; [discriminate |].
    destruct (Ascii.eqb_spec "{"%char c) as [<- | _]; [| discriminate].
    destruct (Nat.leb_spec 1 (run mana_class r1)) as [Hn | _]; [| discriminate].
    cbn [andb].
    destruct (head_char (drop (run mana_class r1) r1)) as [d|] eqn:Hd; [| discriminate].
    destruct (Ascii.eqb_spec "}"%char d) as [<- | _]; [| discriminate].
    intros H. injection H as <-.
    destruct (proj1 (run_prefix mana_class r1 (run mana_class r1)) (Nat.le_refl _))
      as [Hlen Hall].
    apply head_char_drop in Hd as [b Hb].
    repeat split.
    + intros E. apply (f_equal length) in E. rewrite length_take in E by exact Hlen.
      simpl in E. lia.
    + exact Hall.
    + exists b. cbn [append]. f_equal. rewrite <- Hb.
      symmetry. apply take_drop.
  - intros (Hne & Hall & b & ->). cbn [append].
    rewrite Ascii.eqb_refl.
    change (String "}" b) with ("}" ++ b).
    assert (Hrun : run mana_class (sym ++ "}" ++ b) = length sym)
      by (apply run_app_stop; [exact Hall | reflexivity]).
    rewrite Hrun, drop_app_length, take_app_length. cbn [append head_char].
    destruct sym as [|x sym]; [congruence |]. reflexivity.
Qed.

Lemma token_here_head (rest : string) :
  head_char rest <> Some "{"%char -> token_here rest = None.
Proof.
  unfold token_here. destruct rest as [|c r1]; [reflexivity |]. cbn [head_char].
  destruct (Ascii.eqb_spec "{"%char c) as [<- | _]; [congruence | reflexivity].
Qed.

(** no symbol starts inside a symbol or on its closing brace *)
Lemma no_token_inside (r1 : string) (j : nat) :
  close_at r1 (run mana_class r1) = true ->
  j <= run mana_class r1 ->
  token_here (drop j r1) = None.
Proof.
  intros Hclose Hj. apply token_here_head.
  destruct (Nat.eq_dec j (run mana_class r1)) as [-> | Hne].
  - unfold close_at in Hclose.
    destruct (head_char (drop (run mana_class r1) r1)) as [d|]; [| discriminate].
    apply Ascii.eqb_eq in Hclose. subst d. discriminate.
  - destruct (run_inside mana_class r1 j) as (c & -> & Hc); [lia |].
    intros E. injection E as ->. discriminate.
Qed.

Lemma length_take_le (n : nat) (s : string) : length (take n s) <= n.
Proof.
  revert s. induction n as [|n IH]; intros [|c s]; simpl; try lia.
  specialize (IH s). lia.
Qed.

(** [re.finditer] with [mana_pattern] visits every symbol of the text *)
Lemma scan_mana (rest : string) (prev : option ascii) (pos skip : nat) :
  (forall j, j < skip -> token_here (drop j rest) = None) ->
  map (fun m => (m_start m, group1 (m_groups m)))
    (scan mana_pattern prev rest pos skip)
  = all_tokens rest pos.
Proof.
  revert prev pos skip. induction rest as [|c r1 IH]; intros prev pos skip Hskip.
  - destruct skip; reflexivity.
  - destruct skip as [|k]; cbn [scan all_tokens].
    + unfold match_here. rewrite ends_mana.
      destruct (token_here (String c r1)) as [sym|] eqn:Htok.
      * cbn [map m_start group1 m_groups nth m_group0 fst snd app]. f_equal.
        apply IH. intros j Hj.
        revert Htok. unfold token_here.
        destruct (Ascii.eqb "{" c); [| discriminate].
        destruct (Nat.leb 1 (run mana_class r1)); [| discriminate].
        cbn [andb]. fold (close_at r1 (run mana_class r1)).
        destruct (close_at r1 (run mana_class r1)) eqn:Hclose; [| discriminate].
        intros H. injection H as <-.
        apply no_token_inside; [exact Hclose |].
        pose proof (length_take_le (run mana_class r1) r1).
        pose proof (length_take_le (length (take (run mana_class r1) r1) + 2)
                      (String c r1)).
        lia.
      * cbn [app]. apply IH. intros j Hj. lia.
    + pose proof (Hskip 0 (Nat.lt_0_succ k)) as H0. cbn [drop] in H0.
      rewrite H0. cbn [app]. apply IH.
      intros j Hj. apply (Hskip (S j)). lia.
Qed.

Lemma in_all_tokens (rest : string) (pos i : nat) (sym : string) :
  In (i, sym) (all_tokens rest pos) <->
  exists k, i = pos + k /\ k <= length rest /\ token_here (drop k rest) = Some sym.
Proof.
  revert pos. induction rest as [|c r1 IH]; intros pos; cbn [all_tokens].
  - rewrite List.app_nil_r. split.
    + destruct (token_here "") eqn:E; [discriminate | intros []].
    + intros (k & _ & Hk & Htok). simpl in Hk. assert (k = 0) by lia. subst k.
      discriminate.
  - rewrite in_app_iff, IH. split.
    + intros [H | (k & -> & Hk & Htok)].
      * destruct (token_here (String c r1)) as [s|] eqn:E; [| destruct H].
        destruct H as [H | []]. injection H as <- <-.
        exists 0. repeat split; [lia | simpl; lia | exact E].
      * exists (S k). repeat split; [lia | simpl; lia | exact Htok].
    + intros ([|k] & -> & Hk & Htok).
      * left. cbn [drop] in Htok. rewrite Htok. left. f_equal. lia.
      * right. exists k. repeat split; [lia | simpl in Hk; lia | exact Htok].
Qed.

Lemma all_tokens_sorted (rest : string) (pos : nat) :
  StronglySorted lt (map fst (all_tokens rest pos)).
Proof.
  revert pos. induction rest as [|c r1 IH]; intros pos; cbn [all_tokens].
  - cbn. constructor.
  - destruct (token_here (String c r1)) as [sym|]; cbn [app map fst]; [| apply IH].
    constructor; [apply IH |].
    apply Forall_forall. intros i Hi. apply in_map_iff in Hi as ([i' s] & <- & Hin).
    apply in_all_tokens in Hin as (k & -> & _). cbn [fst]. lia.
Qed.

(** the symbols [all_tokens] lists are those that lie in the text *)
Lemma all_tokens_spec (text : string) (i : nat) (sym : string) :
  In (i, sym) (all_tokens text 0) <-> TokenAt text i sym.
Proof.
  rewrite in_all_tokens. unfold TokenAt. split.
  - intros (k & -> & Hk & Htok). apply token_here_spec in Htok as (Hne & Hall & b & Hb).
    repeat split; auto. exists (take k text), b. split.
    + rewrite <- Hb. symmetry. apply take_drop.
    + cbn [Nat.add]. now apply length_take.
  - intros (Hne & Hall & a & b & -> & <-). exists (length a).
    repeat split.
    + rewrite length_app. lia.
    + rewrite drop_app_length. apply token_here_spec. eauto.
Qed.

End ManaFacts.

(** ** Cost extraction: the tap word *)

Module TapFacts.
Import PyStr PyStrFacts Re ReFacts IR AbilityParser Occurrences.

Lemma is_word_lower (c : ascii) : is_word (lower_char c) = is_word c.
Proof. destruct c as [[] [] [] [] [] [] [] []]; reflexivity. Qed.

Lemma ends_lit_i (w : string) (prev : option ascii) (rest : string) :
  ends (lit_i w) prev rest = if prefix_i w rest then [(length w, [])] else [].
Proof.
  revert prev rest. induction w as [|c w IH]; intros prev rest.
  - destruct rest; reflexivity.
  - destruct rest as [|d rest]; [reflexivity |].
    cbn [lit_i prefix_i]. rewrite ends_cat. cbn [ends chr_i].
    destruct (Ascii.eqb (lower_char d) (lower_char c)); [| reflexivity].
    cbn [flat_map fst snd prev_after get drop andb]. rewrite IH.
    destruct (prefix_i w rest); reflexivity.
Qed.

Lemma prefix_i_spec (w s : string) :
  prefix_i w s = true <-> exists x b, s = x ++ b /\ lower x = lower w.
Proof.
  revert s. induction w as [|c w IH]; intros s.
  - split; [intros _; exists "", s; auto | reflexivity].
  - destruct s as [|d s]; cbn [prefix_i].
    + split; [discriminate |]. intros ([|y x] & b & H & Hl); discriminate.
    + rewrite andb_true_iff, IH, Ascii.eqb_eq. split.
      * intros (Hc & x & b & -> & Hl). exists (String d x), b.
        split; [reflexivity |]. cbn [lower]. now rewrite Hc, Hl.
      * intros ([|y x] & b & H & Hl); [discriminate |].
        cbn [append lower] in H, Hl. injection H as -> ->. injection Hl as Hc Hl.
        split; [exact Hc |]. exists x, b. auto.
Qed.

Lemma head_char_app (x b : string) :
  x <> "" -> head_char (x ++ b) = head_char x.
Proof. destruct x; [congruence | reflexivity]. Qed.

Lemma word_head_lower (x : string) :
  word_opt (head_char (lower x)) = word_opt (head_char x).
Proof. destruct x; [reflexivity |]. cbn. apply is_word_lower. Qed.

Lemma last_char_cons (c : ascii) (x : string) :
  last_char (String c x) = match last_char x with Some d => Some d | None => Some c end.
Proof. reflexivity. Qed.

Lemma last_char_none (x : string) : last_char x = None -> x = "".
Proof.
  destruct x as [|c x]; [reflexivity |]. rewrite last_char_cons.
  destruct (last_char x); discriminate.
Qed.

Lemma word_last_lower (x : string) :
  word_opt (last_char (lower x)) = word_opt (last_char x).
Proof.
  induction x as [|c x IH]; [reflexivity |].
  cbn [lower]. rewrite !last_char_cons.
  destruct (last_char x) eqn:E1, (last_char (lower x)) eqn:E2; cbn [word_opt] in *.
  - exact IH.
  - apply last_char_none in E2. destruct x; discriminate.
  - apply last_char_none in E1. subst x. discriminate.
  - apply is_word_lower.
Qed.

(** after [x] the character behind the cursor is the last one of [x] *)
Lemma prev_after_app (prev : option ascii) (x b : string) :
  prev_after prev (x ++ b) (length x) =
  match last_char x with Some c => Some c | None => prev end.
Proof.
  destruct x as [|c x]; [reflexivity |]. cbn [length append prev_after].
  assert (H : get (length x) (String c (x ++ b)) = last_char (String c x)).
  { revert c. induction x as [|d x IH]; intros c; [reflexivity |].
    change (get (length (String d x)) (String c (String d x ++ b)))
      with (get (length x) (String d (x ++ b))).
    rewrite (last_char_cons c), IH.
    destruct (last_char (String d x)) eqn:E; [reflexivity |].
    apply last_char_none in E. discriminate. }
  rewrite H. rewrite last_char_cons. now destruct (last_char x).
Qed.

Lemma ends_wordb (prev : option ascii) (rest : string) :
  ends WordB prev rest =
  if boundary prev (head_char rest) then [(0, [])] else [].
Proof. reflexivity. Qed.

(** [tap_pattern] matches ahead when a boundary stands here and "tap" or
    "t" follows as a word *)
Lemma ends_tap (prev : option ascii) (rest : string) :
  ends tap_pattern prev rest =
  if boundary prev (head_char rest)
  then ((if word_here "tap" prev rest then [(3, [take 3 rest])] else [])
        ++ (if word_here "t" prev rest then [(1, [take 1 rest])] else []))%list
  else [].
Proof.
  unfold tap_pattern. rewrite ends_cat, ends_wordb.
  destruct (boundary prev (head_char rest)); [| reflexivity].
  cbn [flat_map fst snd prev_after drop]. rewrite List.app_nil_r, ends_cat.
  change (ends (Grp (Alt (lit_i "tap") (lit_i "t"))) prev rest)
    with (map (fun e : nat * list string => (fst e, take (fst e) rest :: snd e))
            (ends (lit_i "tap") prev rest ++ ends (lit_i "t") prev rest)).
  rewrite !ends_lit_i. unfold word_here.
  destruct (prefix_i "tap" rest), (prefix_i "t" rest);
    cbn [app map flat_map fst snd length andb]; rewrite ?ends_wordb;
    repeat match goal with
           | |- context [boundary ?p ?n] => destruct (boundary p n)
           end; reflexivity.
Qed.

Lemma word_opt_after (prev : option ascii) (x : string) :
  x <> "" ->
  word_opt (match last_char x with Some c => Some c | None => prev end)
  = word_opt (last_char x).
Proof.
  intros Hx. destruct (last_char x) eqn:E; [reflexivity |].
  apply last_char_none in E. contradiction.
Qed.

(** a boundary, the word in any case, a boundary: said without the matcher *)
Lemma word_here_spec (w : string) (prev : option ascii) (rest : string) :
  lower w = w ->
  word_opt (head_char w) = true ->
  word_opt (last_char w) = true ->
  boundary prev (head_char rest) && word_here w prev rest = true <->
  word_opt prev = false /\
  exists x b, rest = x ++ b /\ lower x = w /\ word_opt (head_char b) = false.
Proof.
  intros Hlow Hhead Hlast.
  assert (Hshape : forall x b, lower x = w ->
            x <> "" /\ length w = length x /\
            word_opt (head_char (x ++ b)) = true /\
            word_opt (prev_after prev (x ++ b) (length w)) = true /\
            drop (length w) (x ++ b) = b).
  { intros x b Hx.
    assert (Hne : x <> "") by (intros ->; subst w; discriminate).
    assert (Hlen : length w = length x) by (rewrite <- Hx; apply length_lower).
    repeat split; auto.
    - rewrite head_char_app by exact Hne.
      rewrite <- word_head_lower, Hx. exact Hhead.
    - rewrite Hlen, prev_after_app, word_opt_after by exact Hne.
      rewrite <- word_last_lower, Hx. exact Hlast.
    - rewrite Hlen. apply drop_app_length. }
  unfold word_here, boundary. rewrite !andb_true_iff. split.
  - intros (Hb1 & Hp & Hb2).
    apply prefix_i_spec in Hp as (x & b & -> & Hx). rewrite Hlow in Hx.
    destruct (Hshape x b Hx) as (_ & _ & H1 & H2 & H3).
    rewrite H1 in Hb1. rewrite H2, H3 in Hb2.
    split; [now destruct (word_opt prev) |].
    exists x, b. repeat split; auto. now destruct (word_opt (head_char b)).
  - intros (Hprev & x & b & -> & Hx & Hb).
    destruct (Hshape x b Hx) as (_ & _ & H1 & H2 & H3).
    rewrite H1, H2, H3, Hprev, Hb. repeat split.
    apply prefix_i_spec. exists x, b. split; [reflexivity | now rewrite Hlow].
Qed.

Lemma prev_at_split (a r : string) :
  word_opt (prev_after None (a ++ r) (length a)) = word_opt (last_char a).
Proof. rewrite prev_after_app. now destruct (last_char a). Qed.

(** a whole word [w] at offset [k] of [text], read off the cursor there *)
Lemma whole_word_at (w text : string) :
  WholeWord w text <->
  exists k, k <= length text /\
    word_opt (prev_after None text k) = false /\
    exists x b, drop k text = x ++ b /\ lower x = w /\
                word_opt (head_char b) = false.
Proof.
  unfold WholeWord. split.
  - intros (a & x & b & -> & Hx & Ha & Hb). exists (length a).
    rewrite prev_at_split, drop_app_length, length_app.
    repeat split; [lia | exact Ha |]. exists x, b. auto.
  - intros (k & Hk & Hprev & x & b & Hd & Hx & Hb).
    exists (take k text), x, b. repeat split; auto.
    + rewrite <- Hd. symmetry. apply take_drop.
    + rewrite <- Hprev.
      pose proof (prev_at_split (take k text) (drop k text)) as H.
      rewrite take_drop, length_take in H by exact Hk. symmetry. exact H.
Qed.

(** [re.search] with [tap_pattern] succeeds exactly when "tap" or "t"
    stands in the text as a whole word *)
Lemma search_tap (text : string) :
  (exists m, search tap_pattern text = Some m) <->
  WholeWord "tap" text \/ WholeWord "t" text.
Proof.
  rewrite !whole_word_at. unfold search. split.
  - intros [m Hm].
    apply search_from_some in Hm as (k & e & es & Hk & He & _ & _).
    rewrite ends_tap in He.
    destruct (boundary (prev_after None text k) (head_char (drop k text))) eqn:Hb;
      [| discriminate].
    destruct (word_here "tap" (prev_after None text k) (drop k text)) eqn:H3.
    + left. exists k. split; [exact Hk |].
      apply (word_here_spec "tap"); try reflexivity. now rewrite Hb, H3.
    + destruct (word_here "t" (prev_after None text k) (drop k text)) eqn:H1;
        [| discriminate].
      right. exists k. split; [exact Hk |].
      apply (word_here_spec "t"); try reflexivity. now rewrite Hb, H1.
  - intros H.
    destruct (search_from tap_pattern None text 0) as [m|] eqn:E; [eauto |].
    exfalso. rewrite search_from_none in E.
    destruct H as [(k & Hk & H) | (k & Hk & H)]; specialize (E k Hk);
      rewrite ends_tap in E;
      [apply (word_here_spec "tap") in H | apply (word_here_spec "t") in H];
      try reflexivity;
      apply andb_true_iff in H as [Hb Hw]; rewrite Hb, Hw in E;
      [| destruct (word_here "tap" _ _)]; discriminate.
Qed.

End TapFacts.

(** ** Cost extraction *)

Module CostFacts.
Import PyStr PyStrFacts Re ReFacts IR AbilityParser Occurrences ManaFacts TapFacts.

(** a loop that appends one entry per element is a [map] *)
Lemma fold_append {A B : Type} (f : A -> B) (l : list A) (acc : list B) :
  fold_left (fun acc x => (acc ++ [f x])%list) l acc = (acc ++ map f l)%list.
Proof.
  revert acc. induction l as [|x l IH]; intros acc; cbn [fold_left map].
  - now rewrite List.app_nil_r.
  - rewrite IH, <- List.app_assoc. reflexivity.
Qed.

(** C7: [_extract_costs] emits one mana entry [{sym}] per brace-delimited
    symbol of W/U/B/R/G letters and digits in the text, in order of
    appearance and with repetitions, and then exactly one tap entry if and
    only if "tap" or "t" stands in the text as a whole word, in any case;
    "tap" inside a longer word such as "untap" gives none. *)
Theorem extract_costs_entries (text : string) :
  exists (tokens : list (nat * string)) (tap : list Cost),
    _extract_costs text = (map mana_entry tokens ++ tap)%list /\
    (forall i sym, In (i, sym) tokens <-> TokenAt text i sym) /\
    StronglySorted lt (map fst tokens) /\
    ((tap = [tap_entry] /\ (WholeWord "tap" text \/ WholeWord "t" text)) \/
     (tap = [] /\ ~ WholeWord "tap" text /\ ~ WholeWord "t" text)) /\
    _extract_costs "Untap it, then untap another." = [].
Proof.
  exists (all_tokens text 0).
  exists (match search tap_pattern text with Some _ => [tap_entry] | None => [] end).
  split; [| split; [| split; [| split]]].
  - unfold _extract_costs. cbv zeta.
    rewrite (fold_append
               (fun mana => {| cost_type := "mana"; cost_value := "{" ++ mana ++ "}" |})).
    cbn [app]. unfold findall, finditer.
    rewrite <- (scan_mana text None 0 0) by (intros j Hj; lia).
    rewrite !map_map. cbn [snd mana_entry].
    destruct (search tap_pattern text);
      [reflexivity | now rewrite List.app_nil_r].
  - apply all_tokens_spec.
  - apply all_tokens_sorted.
  - pose proof (search_tap text) as H.
    destruct (search tap_pattern text) as [m|].
    + left. split; [reflexivity |]. apply H. eauto.
    + right. split; [reflexivity |].
      assert (Hn : ~ (WholeWord "tap" text \/ WholeWord "t" text)).
      { intros Hw. apply H in Hw as [m Hm]. discriminate. }
      tauto.
  - vm_compute. reflexivity.
Qed.

Example extract_costs_samples :
  _extract_costs "{2}{R}{R}, {T}: Untap target creature." =
    [ {| cost_type := "mana"; cost_value := "{2}" |};
      {| cost_type := "mana"; cost_value := "{R}" |};
      {| cost_type := "mana"; cost_value := "{R}" |};
      {| cost_type := "tap"; cost_value := "Tap" |} ] /\
  _extract_costs "Tap two untapped creatures: tap target creature." =
    [ {| cost_type := "tap"; cost_value := "Tap" |} ] /\
  _extract_costs "It can't block." =
    [ {| cost_type := "tap"; cost_value := "Tap" |} ] /\
  _extract_costs "{X}{2/W}{C}" = [].
Proof. repeat split; vm_compute; reflexivity. Qed.

End CostFacts.

(** ** The tags as a whole *)

Module TagRuleFacts.
Import PyStr PyStrFacts Py IR StrategicTagger Invariants TaggerFacts TagSpec.

Lemma pattern_loop_fires (patterns : list string) (text category subcategory : string)
  (st : tag_state) :
  pattern_loop patterns text category subcategory st =
  if existsb (fun p => contains p text) patterns
  then add_tag st category subcategory (9 # 10) else st.
Proof.
  induction patterns as [|p ps IH]; [reflexivity |].
  cbn [pattern_loop existsb]. destruct (contains p text); [reflexivity | exact IH].
Qed.

Lemma apply_rule_fires (card : CardData) (text category : string)
  (st : tag_state) (rule : string * matcher) :
  apply_rule card text category st rule =
  if fires card text (snd rule)
  then add_tag st category (fst rule) (rule_confidence (snd rule)) else st.
Proof.
  unfold apply_rule, fires, rule_confidence. destruct (snd rule) as [ps | f].
  - apply pattern_loop_fires.
  - reflexivity.
Qed.

Lemma accumulated_nil (st : tag_state) : accumulated st st [].
Proof.
  split; [now rewrite List.app_nil_r |].
  intros x. split; [auto | intros [H | (t & [] & _)]; exact H].
Qed.

Lemma accumulated_app (a b c : tag_state) (t1 t2 : list HierarchicalTag) :
  accumulated a b t1 -> accumulated b c t2 -> accumulated a c (t1 ++ t2)%list.
Proof.
  intros [H1 K1] [H2 K2]. split.
  - rewrite H2, H1, List.app_assoc. reflexivity.
  - intros x. rewrite K2, K1. split.
    + intros [[H | (t & Ht & Hx)] | (t & Ht & Hx)]; auto.
      * right. exists t. split; [apply in_or_app; now left | exact Hx].
      * right. exists t. split; [apply in_or_app; now right | exact Hx].
    + intros [H | (t & Ht & Hx)]; [auto |].
      apply in_app_or in Ht as [Ht | Ht]; [left; right | right]; eauto.
Qed.

Lemma add_tag_accumulated (st : tag_state) (category subcategory : string) (conf : Q) :
  accumulated st (add_tag st category subcategory conf)
    [{| path := [category; subcategory]; confidence := conf |}].
Proof.
  split; [reflexivity |]. intros x.
  change (snd (add_tag st category subcategory conf))
    with (set_update (snd st) [category; subcategory]).
  rewrite set_update_elem. split.
  - intros [H | H]; [now left |]. right. eexists. split; [now left | exact H].
  - intros [H | (t & [<- | []] & H)]; [now left | now right].
Qed.

Lemma subrules_accumulated (card : CardData) (text category : string)
  (rules : list (string * matcher)) (st : tag_state) :
  accumulated st (fold_left (apply_rule card text category) rules st)
    (flat_map (fun rule => if fires card text (snd rule)
                           then [rule_tag category rule] else []) rules).
Proof.
  revert st. induction rules as [|r rs IH]; intros st; cbn [fold_left flat_map].
  - apply accumulated_nil.
  - eapply accumulated_app; [| apply IH].
    rewrite apply_rule_fires. destruct (fires card text (snd r)).
    + apply add_tag_accumulated.
    + apply accumulated_nil.
Qed.

Lemma apply_rules_accumulated (card : CardData) (text : string)
  (rules : list (string * list (string * matcher))) (st : tag_state) :
  accumulated st (apply_rules card text rules st) (fired_tags card text rules).
Proof.
  unfold apply_rules, fired_tags. revert st.
  induction rules as [|c cs IH]; intros st; cbn [fold_left flat_map].
  - apply accumulated_nil.
  - eapply accumulated_app; [apply subrules_accumulated | apply IH].
Qed.

(** a tag of the table is listed exactly when its rule applies *)
Lemma in_fired_tags (card : CardData) (text : string)
  (rules : list (string * list (string * matcher))) (tag : HierarchicalTag) :
  In tag (fired_tags card text rules) <->
  exists category subrules rule,
    In (category, subrules) rules /\ In rule subrules /\
    fires card text (snd rule) = true /\ tag = rule_tag category rule.
Proof.
  unfold fired_tags. rewrite in_flat_map. split.
  - intros ([category subrules] & Hc & H). apply in_flat_map in H as (rule & Hr & H).
    cbn [fst snd] in *. destruct (fires card text (snd rule)) eqn:E; [| destruct H].
    destruct H as [<- | []]. exists category, subrules, rule. auto.
  - intros (category & subrules & rule & Hc & Hr & Hf & ->).
    exists (category, subrules). split; [exact Hc |].
    apply in_flat_map. exists rule. split; [exact Hr |].
    cbn [fst snd]. rewrite Hf. now left.
Qed.

Lemma flat_map_filter {A B : Type} (p : A -> bool) (g : A -> B) (l : list A) :
  flat_map (fun x => if p x then [g x] else []) l = map g (filter p l).
Proof.
  induction l as [|x l IH]; [reflexivity |]. cbn [flat_map filter].
  destruct (p x); cbn [app map]; now rewrite IH.
Qed.

Lemma fired_tags_filter (card : CardData) (text : string)
  (rules : list (string * list (string * matcher))) :
  fired_tags card text rules =
  map (fun cr => rule_tag (fst cr) (snd cr))
      (filter (fun cr => fires card text (snd (snd cr))) (table_rules rules)).
Proof.
  unfold fired_tags, table_rules.
  induction rules as [|c cs IH]; [reflexivity |].
  cbn [flat_map]. rewrite filter_app, map_app, IH. f_equal.
  rewrite (flat_map_filter (fun rule => fires card text (snd rule))
             (fun rule => rule_tag (fst c) rule)).
  induction (snd c) as [|r rs IHr]; [reflexivity |].
  cbn [map filter fst snd]. destruct (fires card text (snd r)); cbn [map];
    now rewrite IHr.
Qed.

Lemma in_table_rules (rules : list (string * list (string * matcher)))
  (category : string) (subrules : list (string * matcher)) (rule : string * matcher) :
  In (category, subrules) rules -> In rule subrules ->
  In (category, rule) (table_rules rules).
Proof.
  intros Hc Hr. unfold table_rules. apply in_flat_map.
  exists (category, subrules). split; [exact Hc |].
  cbn [fst snd]. now apply in_map.
Qed.

Lemma nodup_map_filter {X Y : Type} (key : X -> Y) (keep : X -> bool)
  (rows : list X) :
  NoDup (map key rows) -> NoDup (map key (filter keep rows)).
Proof.
  intros Hrows. induction rows as [|r rows IH]; [constructor |].
  cbn [map] in Hrows. apply NoDup_cons_iff in Hrows as [Hr Hrows].
  cbn [filter]. destruct (keep r); [| now apply IH].
  cbn [map]. apply NoDup_cons; [| now apply IH].
  intros Hin. apply Hr. apply in_map_iff in Hin as (y & Hy & Hin).
  apply filter_In in Hin as [Hin _]. apply in_map_iff. eauto.
Qed.

Lemma nodup_map_eq {A B : Type} (f : A -> B) (l : list A) (x y : A) :
  NoDup (map f l) -> In x l -> In y l -> f x = f y -> x = y.
Proof.
  induction l as [|z l IH]; cbn [map]; intros H Hx Hy E; [destruct Hx |].
  inversion H as [|? ? Hz Hl]; subst.
  destruct Hx as [-> | Hx], Hy as [-> | Hy]; auto.
  - exfalso. apply Hz. rewrite E. now apply in_map.
  - exfalso. apply Hz. rewrite <- E. now apply in_map.
Qed.

(** no two rules of the table share a path *)
Lemma table_paths_nodup : NoDup (map rule_path (table_rules TAG_RULES)).
Proof.
  cbv [table_rules TAG_RULES rule_path flat_map map app fst snd].
  repeat (constructor; [cbn [In]; intuition discriminate |]). constructor.
Qed.

(** a rule of the table has its tag listed exactly when it applies *)
Lemma rule_tag_listed (card : CardData) (text category : string)
  (rule : string * matcher) :
  In (category, rule) (table_rules TAG_RULES) ->
  In (rule_tag category rule) (fired_tags card text TAG_RULES) <->
  fires card text (snd rule) = true.
Proof.
  intros Hin. rewrite fired_tags_filter, in_map_iff. split.
  - intros ([c r] & E & H). apply filter_In in H as [H Hf].
    cbn [fst snd] in *.
    assert (Heq : (c, r) = (category, rule)).
    { apply (nodup_map_eq rule_path (table_rules TAG_RULES));
        [apply table_paths_nodup | exact H | exact Hin |].
      exact (f_equal path E). }
    injection Heq as -> ->. exact Hf.
  - intros Hf. exists (category, rule). split; [reflexivity |].
    apply filter_In. auto.
Qed.

Lemma hierarchical_tags_fired (rt : PyRuntime) (card : CardData) :
  hierarchical_tags (generate_tags rt card) =
  fired_tags card (lower (oracle_text (cd_card_metadata card))) TAG_RULES.
Proof.
  unfold generate_tags. cbv beta iota zeta delta [hierarchical_tags].
  now destruct (apply_rules_accumulated card
                  (lower (oracle_text (cd_card_metadata card))) TAG_RULES ([], [])).
Qed.

Lemma substring_tag_listed (rt : PyRuntime) (card : CardData)
  (category subcategory : string) (patterns : list string)
  (subrules : list (string * matcher)) :
  In (category, subrules) TAG_RULES ->
  In (subcategory, Substrings patterns) subrules ->
  In {| path := [category; subcategory]; confidence := 9 # 10 |}
     (hierarchical_tags (generate_tags rt card)) <->
  existsb (fun p => contains p (lower (oracle_text (cd_card_metadata card))))
    patterns = true.
Proof.
  intros Hc Hr. rewrite hierarchical_tags_fired.
  change {| path := [category; subcategory]; confidence := 9 # 10 |}
    with (rule_tag category (subcategory, Substrings patterns)).
  rewrite rule_tag_listed by (eapply in_table_rules; eauto). reflexivity.
Qed.

(** X1: [generate_tags] lists, in the order of [TAG_RULES], exactly one
    hierarchical tag for each rule that applies: a substring rule applies
    when one of its substrings occurs in the lowercased oracle text and
    gives confidence 0.9, the predicate rule applies when cmc is at most 2
    and gives 0.8; a rule that does not apply leaves no tag. *)
Theorem hierarchical_tags_are_fired_rules (rt : PyRuntime) (card_data : CardData) :
  let text := lower (oracle_text (cd_card_metadata card_data)) in
  let tags := hierarchical_tags (generate_tags rt card_data) in
  tags = fired_tags card_data text TAG_RULES /\
  (forall category subcategory patterns subrules,
     In (category, subrules) TAG_RULES ->
     In (subcategory, Substrings patterns) subrules ->
     (In {| path := [category; subcategory]; confidence := 9 # 10 |} tags <->
      AnyOccurs patterns text)) /\
  (In {| path := ["tempo"; "low_cost_interaction"]; confidence := 8 # 10 |} tags <->
   num_le (cmc (cd_card_metadata card_data)) 2 = true) /\
  (forall tag, In tag tags ->
     exists category subcategory,
       path tag = [category; subcategory] /\
       (confidence tag = (9 # 10)%Q \/ confidence tag = (8 # 10)%Q)) /\
  NoDup (map path tags) /\
  List.length tags <= 8.
Proof.
  intros text tags.
  assert (Htags : tags = fired_tags card_data text TAG_RULES)
    by apply hierarchical_tags_fired.
  split; [exact Htags |]. rewrite Htags. clear Htags tags.
  split; [| split; [| split; [| split]]].
  - intros category subcategory patterns subrules Hc Hr.
    change {| path := [category; subcategory]; confidence := 9 # 10 |}
      with (rule_tag category (subcategory, Substrings patterns)).
    rewrite rule_tag_listed by (eapply in_table_rules; eauto).
    apply any_contains_spec.
  - change {| path := ["tempo"; "low_cost_interaction"]; confidence := 8 # 10 |}
      with (rule_tag "tempo"
              ("low_cost_interaction",
               Predicate (fun card => num_le (cmc (cd_card_metadata card)) 2))).
    rewrite rule_tag_listed; [reflexivity |].
    cbv [table_rules TAG_RULES flat_map map app fst snd]. cbn [In]. auto 8.
  - intros tag Hin. apply in_fired_tags in Hin as (c & s & r & _ & _ & _ & ->).
    exists c, (fst r). split; [reflexivity |].
    unfold rule_tag, rule_confidence. cbn [confidence]. destruct (snd r); auto.
  - rewrite fired_tags_filter, map_map.
    apply (nodup_map_filter rule_path). apply table_paths_nodup.
  - rewrite fired_tags_filter, length_map.
    etransitivity; [apply filter_length_le |].
    apply Nat.eq_le_incl. reflexivity.
Qed.

(** a name is flattened exactly when a listed tag has it on its path *)
Lemma in_flattened_tags (rt : PyRuntime) (card : CardData) (x : string) :
  In x (flattened_tags (generate_tags rt card)) <->
  exists t, In t (hierarchical_tags (generate_tags rt card)) /\ In x (path t).
Proof.
  rewrite hierarchical_tags_fired.
  unfold generate_tags. cbv beta iota zeta delta [flattened_tags].
  rewrite PipelineFacts.in_list_of_set.
  destruct (apply_rules_accumulated card
              (lower (oracle_text (cd_card_metadata card))) TAG_RULES ([], []))
    as [_ H].
  rewrite H. cbn [snd In]. tauto.
Qed.

(** X2: [flattened_tags] holds exactly the category and subcategory names
    on the paths of the hierarchical tags, each once: a name is flattened
    if and only if some listed tag has it on its path, so the two lists are
    empty together. *)
Theorem flattened_tags_are_path_names (rt : PyRuntime) (card_data : CardData) :
  let tags := generate_tags rt card_data in
  (forall x, In x (flattened_tags tags) <->
             exists t, In t (hierarchical_tags tags) /\ In x (path t)) /\
  NoDup (flattened_tags tags) /\
  (flattened_tags tags = [] <-> hierarchical_tags tags = []) /\
  List.length (flattened_tags tags) <= 2 * List.length (hierarchical_tags tags).
Proof.
  intros tags.
  assert (Hin : forall x, In x (flattened_tags tags) <->
                  exists t, In t (hierarchical_tags tags) /\ In x (path t))
    by (intros x; apply in_flattened_tags).
  assert (Hnd : NoDup (flattened_tags tags)) by apply flattened_nodup.
  split; [exact Hin |]. split; [exact Hnd |]. split.
  - split; intros E.
    + destruct (hierarchical_tags tags) as [|t ts] eqn:Et; [reflexivity |].
      exfalso.
      assert (Hp : exists c s, path t = [c; s]).
      { assert (Ht : In t (hierarchical_tags tags)) by (rewrite Et; now left).
        subst tags. rewrite hierarchical_tags_fired in Ht.
        apply in_fired_tags in Ht as (c & s & r & _ & _ & _ & ->).
        exists c, (fst r). reflexivity. }
      destruct Hp as (c & s & Hp).
      assert (Hc : In c (flattened_tags tags)).
      { apply Hin. exists t. split; [now left | rewrite Hp; now left]. }
      rewrite E in Hc. destruct Hc.
    + destruct (flattened_tags tags) as [|x xs] eqn:Ex; [reflexivity |].
      exfalso. assert (Hx : In x (x :: xs)) by now left.
      apply Hin in Hx as (t & Ht & _). rewrite E in Ht. destruct Ht.
  - assert (Hincl : incl (flattened_tags tags)
                      (flat_map path (hierarchical_tags tags))).
    { intros x Hx. apply Hin in Hx as (t & Ht & Hx). apply in_flat_map. eauto. }
    etransitivity; [apply (NoDup_incl_length Hnd Hincl) |].
    assert (Hlen : forall ts : list HierarchicalTag,
              (forall t, In t ts -> List.length (path t) = 2) ->
              List.length (flat_map path ts) = 2 * List.length ts).
    { induction ts as [|t ts IH]; intros Hts; [reflexivity |].
      cbn [flat_map List.length]. rewrite List.length_app, IH, (Hts t);
        [lia | now left | intros; apply Hts; now right]. }
    rewrite Hlen; [lia |].
    intros t Ht. subst tags. rewrite hierarchical_tags_fired in Ht.
    apply in_fired_tags in Ht as (c & s & r & _ & _ & _ & ->). reflexivity.
Qed.

(** X3: the card-advantage estimate agrees with the tags: an estimate of 1
    comes with the tag [value, card_draw], an estimate of -1 with the tag
    [interaction, removal], and a card with neither tag has estimate 0. *)
Theorem card_advantage_matches_tags (rt : PyRuntime) (card_data : CardData) :
  let tags := generate_tags rt card_data in
  let draw := {| path := ["value"; "card_draw"]; confidence := 9 # 10 |} in
  let removal := {| path := ["interaction"; "removal"]; confidence := 9 # 10 |} in
  (card_advantage (reward_hints tags) = 1%Z -> In draw (hierarchical_tags tags)) /\
  (card_advantage (reward_hints tags) = (-1)%Z ->
   In removal (hierarchical_tags tags)) /\
  (~ In draw (hierarchical_tags tags) -> ~ In removal (hierarchical_tags tags) ->
   card_advantage (reward_hints tags) = 0%Z) /\
  (card_advantage (reward_hints tags) = 1%Z \/
   card_advantage (reward_hints tags) = 0%Z \/
   card_advantage (reward_hints tags) = (-1)%Z).
Proof.
  intros tags draw removal.
  pose proof (substring_tag_listed rt card_data "value" "card_draw" ["draw"; "cards"]
                [("card_draw", Substrings ["draw"; "cards"]);
                 ("tutoring", Substrings ["search"; "library"])]) as Hdraw.
  pose proof (substring_tag_listed rt card_data "interaction" "removal"
                ["deals"; "damage"; "destroy"; "exile"; "return to hand"]
                [("removal",
                  Substrings ["deals"; "damage"; "destroy"; "exile"; "return to hand"]);
                 ("counterspell", Substrings ["counter target"]);
                 ("protection", Substrings ["prevent"; "indestructible"; "hexproof"])])
    as Hrem.
  assert (Hd := Hdraw ltac:(unfold TAG_RULES; cbn [In]; auto) (or_introl eq_refl)).
  assert (Hr := Hrem ltac:(unfold TAG_RULES; cbn [In]; auto) (or_introl eq_refl)).
  clear Hdraw Hrem. fold tags in Hd, Hr. fold draw in Hd. fold removal in Hr.
  assert (E : card_advantage (reward_hints tags) =
              _estimate_card_advantage (lower (oracle_text (cd_card_metadata card_data))))
    by reflexivity.
  rewrite E. clear E. unfold _estimate_card_advantage.
  cbn [existsb] in Hd, Hr.
  set (text := lower (oracle_text (cd_card_metadata card_data))) in *.
  destruct (contains "draw" text), (contains "search" text),
    (contains "deals" text), (contains "damage" text), (contains "destroy" text);
    cbn [orb] in *;
    (split; [| split; [| split]]);
    try (intros; discriminate); try (intros; now apply Hd); try (intros; now apply Hr);
    try (intros; reflexivity); auto;
    try (intros Hnd Hnr; exfalso; first [apply Hnd; now apply Hd | apply Hnr; now apply Hr]).
Qed.

End TagRuleFacts.

(** ** Archetype and reward hints *)

Module HintFacts.
Import PyStr PyStrFacts Py IR StrategicTagger CardIRGenerator.

(** a cost of at most 2 is not a cost of at least 6 *)
Lemma num_le_2_not_ge_6 (x : pynum) : num_le x 2 = true -> num_ge x 6 = false.
Proof.
  destruct x as [q | | |]; cbn [num_le num_ge]; try discriminate; try reflexivity.
  intros H. apply Qle_bool_iff in H.
  destruct (Qle_bool (inject_Z 6) q) eqn:E; [| reflexivity].
  apply Qle_bool_iff in E. exfalso.
  assert (K : (inject_Z 6 <= inject_Z 2)%Q) by (eapply Qle_trans; eauto).
  revert K. unfold Qle. cbn. lia.
Qed.

(** X4: the archetype hints are a selection of "aggro", "control", "tempo",
    "combo" in that order, each at most once; "aggro" is there exactly when
    cmc is at most 2 and "control" exactly when it is at least 6, so never
    both and never more than three hints; "combo" is there exactly when the
    lowercased oracle text has "combo", "infinite" or "win the game". *)
Theorem archetype_hints_shape (card_data : CardData) :
  let hints := _generate_archetype_hints card_data in
  let cmc := cmc (cd_card_metadata card_data) in
  let text := lower (oracle_text (cd_card_metadata card_data)) in
  hints = filter (fun h => existsb (String.eqb h) hints)
            ["aggro"; "control"; "tempo"; "combo"] /\
  (In "aggro" hints <-> num_le cmc 2 = true) /\
  (In "control" hints <-> num_ge cmc 6 = true) /\
  (In "combo" hints <-> AnyOccurs ["combo"; "infinite"; "win the game"] text) /\
  ~ (In "aggro" hints /\ In "control" hints) /\
  NoDup hints /\
  List.length hints <= 3.
Proof.
  intros hints cmc text.
  pose proof (any_contains_spec ["combo"; "infinite"; "win the game"] text) as Hcombo.
  fold (AnyOccurs ["combo"; "infinite"; "win the game"] text) in Hcombo.
  pose proof (num_le_2_not_ge_6 cmc) as Hex.
  subst hints. unfold _generate_archetype_hints.
  fold cmc. fold text. cbv zeta.
  destruct (num_le cmc 2); [rewrite (Hex eq_refl) | destruct (num_ge cmc 6)];
    destruct (contains "instant" (lower (type_line (cd_card_metadata card_data)))
              || contains "flash" text);
    destruct (existsb (fun keyword => contains keyword text)
                ["combo"; "infinite"; "win the game"]);
    cbn [app];
    (split; [reflexivity |]);
    (split; [cbn [In]; intuition (try discriminate; try congruence) |]);
    (split; [cbn [In]; intuition (try discriminate; try congruence) |]);
    (split; [cbn [In]; intuition (try discriminate; try congruence) |]);
    (split; [cbn [In]; intuition (try discriminate; try congruence) |]);
    (split; [| cbn [List.length]; lia]);
    repeat (constructor; [cbn [In]; intuition discriminate |]); constructor.
Qed.

Lemma tempo_hint_iff (card_data : CardData) :
  In "tempo" (_generate_archetype_hints card_data) <->
  contains "instant" (lower (type_line (cd_card_metadata card_data)))
  || contains "flash" (lower (oracle_text (cd_card_metadata card_data))) = true.
Proof.
  unfold _generate_archetype_hints. cbv zeta.
  destruct (num_le (cmc (cd_card_metadata card_data)) 2);
    destruct (num_ge (cmc (cd_card_metadata card_data)) 6);
    destruct (contains "instant" (lower (type_line (cd_card_metadata card_data)))
              || contains "flash" (lower (oracle_text (cd_card_metadata card_data))));
    destruct (existsb _ ["combo"; "infinite"; "win the game"]);
    cbn [app In]; intuition (try discriminate; try congruence).
Qed.

(** X5: in the output record the hints and the zones agree: the archetype
    hint "tempo" is present exactly when immediate_impact is true; a type
    line with "instant" gives immediate_impact and no zone "stack"; and
    delayed_impact (an enchantment or artifact) comes with the zone
    "battlefield". *)
Theorem hints_agree_with_zones (rt : PyRuntime) (now : string) (data : Scryfall) :
  let ir := convert_scryfall_to_ir rt now data in
  let tags := strategic_tags ir in
  exists gameplay,
    gameplay_metadata ir = Some gameplay /\
    (In "tempo" (archetype_hints tags) <->
     immediate_impact (reward_hints tags) = true) /\
    (Occurs "instant" (lower (get (in_type_line data) "")) ->
     immediate_impact (reward_hints tags) = true /\
     In "tempo" (archetype_hints tags) /\
     ~ In "stack" (zones gameplay)) /\
    (delayed_impact (reward_hints tags) = true -> In "battlefield" (zones gameplay)).
Proof.
  intros ir tags. eexists. split; [reflexivity |].
  set (card := {| cd_card_metadata := _extract_metadata data;
                  cd_parsed_abilities := _parse_abilities data |}).
  assert (Htempo : In "tempo" (archetype_hints tags) <->
                   immediate_impact (reward_hints tags) = true)
    by apply (tempo_hint_iff card).
  assert (Himm : immediate_impact (reward_hints tags) =
                 contains "instant" (lower (get (in_type_line data) ""))
                 || contains "flash" (lower (get (in_oracle_text data) "")))
    by reflexivity.
  assert (Hdel : delayed_impact (reward_hints tags) =
                 contains "enchantment" (lower (get (in_type_line data) ""))
                 || contains "artifact" (lower (get (in_type_line data) "")))
    by reflexivity.
  split; [exact Htempo |].
  unfold _extract_gameplay_metadata. cbv beta iota zeta delta [zones].
  set (tl := lower (get (in_type_line data) "")) in *.
  split.
  - intros Hi. apply contains_spec in Hi.
    assert (Him : immediate_impact (reward_hints tags) = true)
      by (rewrite Himm, Hi; reflexivity).
    split; [exact Him |]. split; [now apply Htempo |].
    cbn [existsb]. rewrite Hi. cbn [orb negb].
    destruct (contains "creature" tl || (contains "artifact" tl
                || (contains "enchantment" tl || (contains "planeswalker" tl || false))));
      cbn [app In]; intuition discriminate.
  - rewrite Hdel. intros Hd. cbn [existsb].
    assert (Hb : contains "creature" tl || (contains "artifact" tl
                   || (contains "enchantment" tl || (contains "planeswalker" tl || false)))
                 = true).
    { destruct (contains "enchantment" tl), (contains "artifact" tl);
        try discriminate; now rewrite ?orb_true_r. }
    rewrite Hb. cbn [app].
    destruct (negb (contains "instant" tl || (contains "sorcery" tl || false)));
      right; now left.
Qed.

(** X15: a record whose oracle text is absent or empty gets the neutral
    reading of every text-driven field: card_advantage 0, symmetrical
    false, enters_tapped false, has_abilities_in_graveyard false, no
    archetype hint "combo"; immediate_impact and the hint "tempo" then
    depend on the type line alone. *)
Theorem missing_text_defaults (rt : PyRuntime) (now : string) (data : Scryfall) :
  in_oracle_text data = None \/ in_oracle_text data = Some "" ->
  let ir := convert_scryfall_to_ir rt now data in
  let tags := strategic_tags ir in
  exists gameplay,
    gameplay_metadata ir = Some gameplay /\
    card_advantage (reward_hints tags) = 0%Z /\
    symmetrical (reward_hints tags) = false /\
    enters_tapped gameplay = false /\
    has_abilities_in_graveyard gameplay = false /\
    ~ In "combo" (archetype_hints tags) /\
    (immediate_impact (reward_hints tags) = true <->
     Occurs "instant" (lower (get (in_type_line data) ""))) /\
    (In "tempo" (archetype_hints tags) <->
     Occurs "instant" (lower (get (in_type_line data) ""))).
Proof.
  intros Htext ir tags.
  assert (Ho : get (in_oracle_text data) "" = "")
    by (destruct Htext as [E | E]; rewrite E; reflexivity).
  eexists. split; [reflexivity |].
  set (card := {| cd_card_metadata := _extract_metadata data;
                  cd_parsed_abilities := _parse_abilities data |}).
  assert (Htempo := tempo_hint_iff card).
  assert (Hlow : lower (oracle_text (cd_card_metadata card)) = "")
    by (cbn [card cd_card_metadata _extract_metadata oracle_text]; now rewrite Ho).
  assert (Himm : immediate_impact (reward_hints tags) =
                 contains "instant" (lower (get (in_type_line data) ""))
                 || contains "flash" (lower (oracle_text (cd_card_metadata card))))
    by reflexivity.
  assert (Hca : card_advantage (reward_hints tags) =
                _estimate_card_advantage (lower (oracle_text (cd_card_metadata card))))
    by reflexivity.
  assert (Hsym : symmetrical (reward_hints tags) =
                 contains "each player" (lower (oracle_text (cd_card_metadata card)))
                 || contains "all players" (lower (oracle_text (cd_card_metadata card))))
    by reflexivity.
  assert (Hcombo : In "combo" (archetype_hints tags) ->
                   existsb (fun keyword =>
                              contains keyword (lower (oracle_text (cd_card_metadata card))))
                     ["combo"; "infinite"; "win the game"] = true).
  { change (archetype_hints tags) with (_generate_archetype_hints card).
    unfold _generate_archetype_hints. cbv zeta.
    destruct (existsb _ ["combo"; "infinite"; "win the game"]); [reflexivity |].
    destruct (num_le (cmc (cd_card_metadata card)) 2);
      destruct (num_ge (cmc (cd_card_metadata card)) 6);
      destruct (contains "instant" (lower (type_line (cd_card_metadata card)))
                || contains "flash" (lower (oracle_text (cd_card_metadata card))));
      cbn [app In]; intuition discriminate. }
  rewrite Hlow in *.
  split; [rewrite Hca; reflexivity |].
  split; [rewrite Hsym; reflexivity |].
  unfold _extract_gameplay_metadata.
  cbv beta iota zeta delta [enters_tapped has_abilities_in_graveyard].
  rewrite Ho. cbn [lower].
  split; [reflexivity |]. split; [reflexivity |].
  split; [intros H; apply Hcombo in H; discriminate |].
  assert (Hi : immediate_impact (reward_hints tags) = true <->
               Occurs "instant" (lower (get (in_type_line data) ""))).
  { rewrite Himm. change (contains "flash" "") with false.
    rewrite orb_false_r. apply contains_spec. }
  split; [exact Hi |].
  rewrite <- Hi, Himm. exact Htempo.
Qed.

Lemma missing_text_defaults_witness :
  (in_oracle_text Samples.empty_card = None \/
   in_oracle_text Samples.empty_card = Some "") /\
  card_advantage
    (reward_hints
       (strategic_tags (convert_scryfall_to_ir Samples.runtime_a "" Samples.empty_card)))
  = 0%Z.
Proof.
  split; [now left |].
  destruct (missing_text_defaults Samples.runtime_a "" Samples.empty_card
              (or_introl eq_refl)) as (g & _ & H & _).
  exact H.
Defined.

End HintFacts.

(** ** Legality, identifiers and the shape of the output *)

Module OutputFacts.
Import PyStr PyStrFacts Py IR CardIRGenerator Shapes.

Lemma dict_get_absent (d : dict) (key default : string) :
  (forall v, ~ In (key, v) d) -> dict_get d key default = default.
Proof.
  induction d as [|[k v] d IH]; intros H; [reflexivity |]. cbn [dict_get].
  destruct (String.eqb_spec k key) as [-> | _].
  - exfalso. apply (H v). now left.
  - apply IH. intros w Hw. apply (H w). now right.
Qed.

Lemma dict_get_first (d1 d2 : dict) (key v default : string) :
  (forall w, ~ In (key, w) d1) ->
  dict_get (d1 ++ (key, v) :: d2)%list key default = v.
Proof.
  induction d1 as [|[k w] d1 IH]; intros H; cbn [app dict_get].
  - now rewrite String.eqb_refl.
  - destruct (String.eqb_spec k key) as [-> | _].
    + exfalso. apply (H w). now left.
    + apply IH. intros u Hu. apply (H u). now right.
Qed.

(** X6: can_be_commander is true exactly when the lowercased type line
    holds both "legendary" and "creature", in either order, and then the
    zones of the same record include "battlefield"; the commander status is
    the one the legality map binds to "commander", and "not_legal" when the
    map is absent or has no such key. *)
Theorem commander_eligibility (rt : PyRuntime) (now : string) (data : Scryfall) :
  let ir := convert_scryfall_to_ir rt now data in
  let type_line := lower (get (in_type_line data) "") in
  exists gameplay,
    gameplay_metadata ir = Some gameplay /\
    (can_be_commander (format_legality ir) = true <->
     Occurs "legendary" type_line /\ Occurs "creature" type_line) /\
    (can_be_commander (format_legality ir) = true ->
     In "battlefield" (zones gameplay)) /\
    (in_legalities data = None -> commander (format_legality ir) = "not_legal") /\
    (forall d, in_legalities data = Some d ->
       (forall v, ~ In ("commander", v) d) ->
       commander (format_legality ir) = "not_legal") /\
    (forall d1 d2 v, in_legalities data = Some (d1 ++ ("commander", v) :: d2)%list ->
       (forall w, ~ In ("commander", w) d1) ->
       commander (format_legality ir) = v).
Proof.
  intros ir type_line. eexists. split; [reflexivity |].
  assert (Hcan : can_be_commander (format_legality ir) =
                 contains "legendary" type_line && contains "creature" type_line)
    by reflexivity.
  assert (Hcom : commander (format_legality ir) =
                 dict_get (get (in_legalities data) []) "commander" "not_legal")
    by reflexivity.
  rewrite Hcan, Hcom. clear Hcan Hcom.
  split; [| split; [| split; [| split]]].
  - rewrite andb_true_iff, !contains_spec. reflexivity.
  - intros H. apply andb_true_iff in H as [_ Hc].
    unfold _extract_gameplay_metadata. cbv beta iota zeta delta [zones].
    fold type_line. cbn [existsb]. rewrite Hc. cbn [orb app].
    destruct (negb (contains "instant" type_line || (contains "sorcery" type_line || false)));
      right; now left.
  - intros ->. reflexivity.
  - intros d -> H. now apply dict_get_absent.
  - intros d1 d2 v -> H. now apply dict_get_first.
Qed.

Example commander_samples :
  can_be_commander
    (_extract_legality
       {| in_name := None; in_oracle_id := None; in_id := None; in_mana_cost := None;
          in_cmc := None; in_type_line := Some "Legendary Creature - God";
          in_oracle_text := None; in_colors := None; in_color_identity := None;
          in_keywords := None; in_power := None; in_toughness := None;
          in_loyalty := None; in_legalities := None |}) = true /\
  can_be_commander
    (_extract_legality
       {| in_name := None; in_oracle_id := None; in_id := None; in_mana_cost := None;
          in_cmc := None; in_type_line := Some "Legendary Artifact";
          in_oracle_text := None; in_colors := None; in_color_identity := None;
          in_keywords := None; in_power := None; in_toughness := None;
          in_loyalty := None; in_legalities := None |}) = false.
Proof. split; reflexivity. Qed.




Lemma lower_char_space (c : ascii) :
  Ascii.eqb (lower_char c) " " = Ascii.eqb c " ".
Proof. destruct c as [[] [] [] [] [] [] [] []]; reflexivity. Qed.








End OutputFacts.

(** ** How the parts of a parsed ability relate *)

Module ParseFacts.
Import PyStr PyStrFacts Re ReFacts Py IR AbilityParser CardIRGenerator Occurrences
       TriggerFacts.

Lemma lower_char_colon (c : ascii) :
  Ascii.eqb ":" (lower_char c) = Ascii.eqb ":" c.
Proof. destruct c as [[] [] [] [] [] [] [] []]; reflexivity. Qed.

Lemma contains_colon_lower (text : string) :
  contains ":" (lower text) = contains ":" text.
Proof.
  induction text as [|c s IH]; [reflexivity |].
  cbn [lower]. rewrite !contains_cons, !prefix_cons, IH, lower_char_colon.
  now destruct s.
Qed.

(** X8: classification, triggers and effects of an ability depend on its
    text only up to letter case: two texts with the same lowercase form get
    the same ability type, the same triggers and the same effects.  Costs do
    not: "{R}" is a mana cost and "{r}" is not. *)
Theorem parse_ignores_case (text1 text2 ability_id : string) :
  lower text1 = lower text2 ->
  let a1 := parse_ability text1 ability_id in
  let a2 := parse_ability text2 ability_id in
  ability_type a1 = ability_type a2 /\
  triggers (parsed_components a1) = triggers (parsed_components a2) /\
  effects (parsed_components a1) = effects (parsed_components a2) /\
  _extract_costs "{R}" <> _extract_costs "{r}".
Proof.
  intros E a1 a2. subst a1 a2. unfold parse_ability.
  cbv beta iota zeta delta [ability_type parsed_components triggers effects].
  split; [| split; [| split]].
  - unfold _classify_ability_type.
    rewrite <- (contains_colon_lower text1), <- (contains_colon_lower text2), E.
    reflexivity.
  - unfold _extract_triggers. now rewrite E.
  - unfold _extract_effects. now rewrite E.
  - vm_compute. discriminate.
Qed.

Lemma parse_ignores_case_witness :
  lower "When X enters, it deals 2 damage to you." =
  lower "WHEN x ENTERS, IT DEALS 2 DAMAGE TO YOU." /\
  triggers (parsed_components (parse_ability "When X enters, it deals 2 damage to you." "id"))
  = triggers (parsed_components
                (parse_ability "WHEN x ENTERS, IT DEALS 2 DAMAGE TO YOU." "id")).
Proof.
  split; [reflexivity |].
  apply (parse_ignores_case "When X enters, it deals 2 damage to you."
           "WHEN x ENTERS, IT DEALS 2 DAMAGE TO YOU." "id" eq_refl).
Defined.

(** an instance of a trigger template holds one of the trigger words *)
Lemma instance_has_trigger_word (t : template) (text : string) (i : nat) (span : string) :
  In t [Gap "when " " enters"; Gap "whenever " " dies"; Literal "at the beginning"] ->
  InstanceAt t text i span ->
  AnyOccurs ["when"; "whenever"; "at the beginning"] text.
Proof.
  intros Ht (Hinst & a & b & -> & _).
  destruct Ht as [<- | [<- | [<- | []]]]; cbn [Instance] in Hinst.
  - destruct Hinst as (mid & -> & _). exists "when". split; [now left |].
    exists a, (" " ++ mid ++ " enters" ++ b).
    rewrite !app_assoc. reflexivity.
  - destruct Hinst as (mid & -> & _). exists "whenever". split; [right; now left |].
    exists a, (" " ++ mid ++ " dies" ++ b).
    rewrite !app_assoc. reflexivity.
  - subst span. exists "at the beginning". split; [right; right; now left |].
    exists a, b. reflexivity.
Qed.

(** X9: an ability with an extracted trigger is never classified as a
    keyword or a static ability: it is "activated" when the text has a
    colon and "triggered" otherwise. *)
Theorem triggers_imply_triggered (text ability_id : string) :
  let ability := parse_ability text ability_id in
  triggers (parsed_components ability) <> [] ->
  ability_type ability = if contains ":" text then "activated" else "triggered".
Proof.
  intros ability. subst ability. unfold parse_ability.
  cbv beta iota zeta delta [ability_type parsed_components triggers].
  intros Htrig.
  assert (Hword : AnyOccurs ["when"; "whenever"; "at the beginning"] (lower text)).
  { pose proof (search_template (Gap "when " " enters") (lower text)) as S1.
    pose proof (search_template (Gap "whenever " " dies") (lower text)) as S2.
    pose proof (search_template (Literal "at the beginning") (lower text)) as S3.
    revert Htrig. unfold _extract_triggers, trigger_patterns. cbn [fold_left fst snd].
    change when_enters with (template_regex (Gap "when " " enters")).
    change whenever_dies with (template_regex (Gap "whenever " " dies")).
    change at_the_beginning with (template_regex (Literal "at the beginning")).
    destruct (search (template_regex (Gap "when " " enters")) (lower text)) as [m1|].
    - intros _. destruct S1 as (i & Hi & _).
      eapply instance_has_trigger_word; [| exact Hi]. now left.
    - destruct (search (template_regex (Gap "whenever " " dies")) (lower text)) as [m2|].
      + intros _. destruct S2 as (i & Hi & _).
        eapply instance_has_trigger_word; [| exact Hi]. right. now left.
      + destruct (search (template_regex (Literal "at the beginning")) (lower text))
          as [m3|].
        * intros _. destruct S3 as (i & Hi & _).
          eapply instance_has_trigger_word; [| exact Hi]. right. right. now left.
        * intros H. now contradiction H. }
  apply any_contains_spec in Hword.
  unfold _classify_ability_type. rewrite Hword.
  now destruct (contains ":" text).
Qed.

Lemma triggers_imply_triggered_witness :
  triggers (parsed_components
              (parse_ability "Whenever a creature dies, draw a card." "id")) <> [] /\
  ability_type (parse_ability "Whenever a creature dies, draw a card." "id")
  = "triggered".
Proof.
  assert (H : triggers (parsed_components
                          (parse_ability "Whenever a creature dies, draw a card." "id"))
              <> []) by (vm_compute; discriminate).
  split; [exact H |].
  exact (triggers_imply_triggered "Whenever a creature dies, draw a card." "id" H).
Defined.

(** X10: the output carries at most one parsed ability: none exactly when
    the oracle text of its metadata is empty, and otherwise one whose
    raw_text is that oracle text verbatim, whose type is one of the four
    ability types, and whose components are those extracted from it. *)
Theorem abilities_match_metadata (rt : PyRuntime) (now : string) (data : Scryfall) :
  let ir := convert_scryfall_to_ir rt now data in
  let text := oracle_text (card_metadata ir) in
  text = get (in_oracle_text data) "" /\
  (parsed_abilities ir = [] <-> text = "") /\
  List.length (parsed_abilities ir) <= 1 /\
  (forall ability, In ability (parsed_abilities ir) ->
     raw_text ability = text /\
     In (ability_type ability) ["activated"; "triggered"; "keyword"; "static"] /\
     costs (parsed_components ability) = _extract_costs text /\
     triggers (parsed_components ability) = _extract_triggers text /\
     effects (parsed_components ability) = _extract_effects text).
Proof.
  intros ir text.
  assert (Ht : text = get (in_oracle_text data) "") by reflexivity.
  assert (Hp : parsed_abilities ir = _parse_abilities data) by reflexivity.
  split; [exact Ht |]. rewrite Hp, Ht. unfold _parse_abilities.
  destruct (String.eqb_spec (get (in_oracle_text data) "") "") as [E | E].
  - split; [tauto |]. split; [cbn; lia |]. intros ability [].
  - split; [split; [discriminate | contradiction] |]. split; [cbn; lia |].
    intros ability [<- | []]. unfold parse_ability.
    cbv beta iota zeta delta [raw_text ability_type parsed_components costs
                              triggers effects].
    repeat split. unfold _classify_ability_type.
    repeat match goal with
           | |- context [if ?b then _ else _] => destruct b
           end; cbn [In]; auto.
Qed.

End ParseFacts.

(** ** Damage effects *)

Module EffectFacts.
Import PyStr PyStrFacts Re ReFacts Py IR AbilityParser Occurrences Shapes.

(** every match of a scan is the first way of matching at some offset *)
Lemma in_scan (r : regex) (rest : string) (prev : option ascii) (pos skip : nat)
  (m : match_obj) :
  In m (scan r prev rest pos skip) ->
  exists k e es,
    k <= length rest /\
    ends r (prev_after prev rest k) (drop k rest) = e :: es /\
    m = MatchObj (pos + k) (take (fst e) (drop k rest)) (snd e).
Proof.
  revert prev pos skip. induction rest as [|c rest IH]; intros prev pos skip.
  - destruct skip; cbn [scan]; [| intros []].
    unfold match_here. destruct (ends r prev "") as [|e es] eqn:E; [intros [] |].
    intros [<- | []]. exists 0, e, es. rewrite Nat.add_0_r. auto.
  - assert (Hnext : forall skip', In m (scan r (Some c) rest (S pos) skip') ->
              exists k e es,
                k <= length (String c rest) /\
                ends r (prev_after prev (String c rest) k) (drop k (String c rest))
                = e :: es /\
                m = MatchObj (pos + k) (take (fst e) (drop k (String c rest))) (snd e)).
    { intros skip' H. apply IH in H as (k & e & es & Hk & He & ->).
      exists (S k), e, es. rewrite prev_after_cons by exact Hk.
      repeat split; [simpl; lia | exact He | cbn [drop]; f_equal; lia]. }
    destruct skip as [|skip]; cbn [scan]; [| apply Hnext].
    unfold match_here.
    destruct (ends r prev (String c rest)) as [|e es] eqn:E; [apply Hnext |].
    intros [<- | H]; [| eapply Hnext; exact H].
    exists 0, e, es. rewrite Nat.add_0_r. repeat split; [apply Nat.le_0_l | exact E].
Qed.

Lemma flat_map_head {A B : Type} (f : A -> list B) (l : list A) (e : B) (es : list B) :
  flat_map f l = e :: es ->
  exists l1 x l2 es',
    l = (l1 ++ x :: l2)%list /\ (forall y, In y l1 -> f y = []) /\ f x = e :: es'.
Proof.
  induction l as [|x l IH]; cbn [flat_map]; [discriminate |].
  destruct (f x) as [|e' es'] eqn:E; cbn [app].
  - intros H. apply IH in H as (l1 & y & l2 & es'' & -> & Hl1 & Hy).
    exists (x :: l1), y, l2, es''. repeat split; auto.
    intros z [<- | Hz]; auto.
  - intros H. injection H as <- _. exists [], x, l, es'. repeat split; auto.
    intros y [].
Qed.

Lemma map_head {A B : Type} (g : A -> B) (l : list A) (e : B) (es : list B) :
  map g l = e :: es -> exists x l', l = x :: l' /\ e = g x.
Proof. destruct l as [|x l']; [discriminate |]. intros H. injection H as <- _. eauto. Qed.

Lemma rev_down_to_one (n : nat) : rev (down_to_one n) = seq 1 n.
Proof.
  induction n as [|n IH]; [reflexivity |].
  cbn [down_to_one rev]. rewrite IH, seq_S. reflexivity.
Qed.

Lemma seq_split (a n : nat) (l1 l2 : list nat) (y : nat) :
  seq a n = (l1 ++ y :: l2)%list ->
  y < a + n /\ a <= y /\ forall j, a <= j < y -> In j l1.
Proof.
  revert a n. induction l1 as [|x l1 IH]; intros a n H.
  - destruct n as [|n]; [discriminate |]. cbn [seq app] in H. injection H as <- _.
    split; [lia |]. split; [lia |]. intros j Hj. lia.
  - destruct n as [|n]; [discriminate |]. cbn [seq app] in H. injection H as <- H.
    apply IH in H as (H1 & H2 & H3). split; [lia |]. split; [lia |].
    intros j Hj. destruct (Nat.eq_dec j a) as [-> | Hne]; [now left |].
    right. apply H3. lia.
Qed.

Lemma ends_target_end (prev : option ascii) (s : string) :
  ends (Alt (chr ".") Eos) prev s <> [] <-> target_end s.
Proof.
  unfold target_end. cbn [ends chr]. destruct s as [|c s].
  - cbn. split; [auto | discriminate].
  - destruct (Ascii.eqb_spec "."%char c) as [<- | Hne].
    + split; [eauto | discriminate].
    + cbn [app]. destruct s as [|d s].
      * destruct (Ascii.eqb_spec c "010"%char) as [-> | Hn].
        -- split; [auto | discriminate].
        -- split; [intros H; now contradiction H |].
           intros [(s' & E) | [E | E]]; congruence.
      * split; [intros H; now contradiction H |].
        intros [(s' & E) | [E | E]]; congruence.
Qed.

(** what the first match of [damage_pattern] ahead looks like *)
Lemma ends_damage_head (prev : option ascii) (rest : string)
  (e : nat * list string) (es : list (nat * list string)) :
  ends damage_pattern prev rest = e :: es ->
  exists digits target tail,
    rest = "deals " ++ digits ++ " damage to " ++ target ++ tail /\
    snd e = [digits; target] /\
    1 <= length digits /\ forall_chars is_digit digits = true /\
    1 <= length target /\ forall_chars dot target = true /\
    target_end tail /\
    (forall j, 1 <= j < length target -> ~ target_end (drop j target ++ tail)).
Proof.
  unfold damage_pattern. fold damage_tail. rewrite ends_cat, ends_lit.
  destruct (prefix "deals " rest) eqn:Hp; [| discriminate].
  apply prefix_spec in Hp as [r1 ->].
  cbn [flat_map fst snd]. rewrite List.app_nil_r.
  replace (drop (length "deals ") ("deals " ++ r1)) with r1 by reflexivity.
  generalize (prev_after prev ("deals " ++ r1) (length "deals ")) as p1.
  intros p1 H. apply map_head in H as (e1 & es1 & H & ->).
  unfold damage_tail in H. rewrite ends_cat in H.
  apply flat_map_head in H as (l1 & x & l2 & es' & Hl & _ & Hx).
  assert (Hxin : In x (ends (Grp (PlusG is_digit)) p1 r1))
    by (rewrite Hl; apply in_or_app; right; now left).
  cbn [ends] in Hxin. rewrite map_map in Hxin.
  apply in_map_iff in Hxin as (n1 & <- & Hn1). cbn [fst snd] in Hx.
  apply in_down_to_one in Hn1.
  destruct (proj1 (run_prefix is_digit r1 n1)) as [Hlen1 Hdig]; [lia |].
  apply map_head in Hx as (e2 & es2 & Hx & ->).
  rewrite ends_cat, ends_lit in Hx.
  destruct (prefix " damage to " (drop n1 r1)) eqn:Hp2; [| discriminate].
  apply prefix_spec in Hp2 as [r3 Hr3].
  cbn [flat_map fst snd] in Hx. rewrite List.app_nil_r in Hx.
  rewrite Hr3 in Hx.
  replace (drop (length " damage to ") (" damage to " ++ r3)) with r3 in Hx
    by reflexivity.
  revert Hx.
  generalize (prev_after (prev_after p1 r1 n1) (" damage to " ++ r3)
                (length " damage to ")) as p3.
  intros p3 Hx. apply map_head in Hx as (e3 & es3 & Hx & ->).
  rewrite ends_cat in Hx.
  apply flat_map_head in Hx as (k1 & y & k2 & es'' & Hk & Hbefore & Hy).
  cbn [ends] in Hk. rewrite map_map, rev_down_to_one in Hk.
  apply map_eq_app in Hk as (L1 & L2' & Hseq & <- & Hk).
  apply map_eq_cons in Hk as (n2 & L2 & -> & <- & _).
  cbn [fst snd] in Hy.
  pose proof (seq_split _ _ _ _ _ Hseq) as (Hn2hi & Hn2lo & Hsmall).
  assert (Hn2 : n2 <= run dot r3) by lia.
  destruct (proj1 (run_prefix dot r3 n2) Hn2) as [Hlen3 Hdot].
  assert (Hend : ends (Alt (chr ".") Eos) (prev_after p3 r3 n2) (drop n2 r3) <> []).
  { intros E. rewrite E in Hy. discriminate. }
  apply ends_target_end in Hend.
  apply map_head in Hy as (e4 & es4 & Hy & ->).
  assert (He4 : snd e4 = []).
  { assert (Hin : In e4 (ends (Alt (chr ".") Eos) (prev_after p3 r3 n2) (drop n2 r3)))
      by (rewrite Hy; now left).
    cbn [ends chr] in Hin. apply in_app_or in Hin as [Hin | Hin].
    - destruct (drop n2 r3) as [|c s]; [destruct Hin |].
      destruct (Ascii.eqb "." c); [| destruct Hin]. destruct Hin as [<- | []].
      reflexivity.
    - destruct (drop n2 r3) as [|c [|d s]]; try destruct Hin as [<- | []];
        try reflexivity; try (destruct Hin; fail).
      destruct (Ascii.eqb c "010"); [| destruct Hin]. destruct Hin as [<- | []].
      reflexivity. }
  exists (take n1 r1), (take n2 r3), (drop n2 r3).
  split; [| split; [| split; [| split; [| split; [| split; [| split]]]]]].
  - rewrite take_drop, <- Hr3, take_drop. reflexivity.
  - cbn [fst snd app]. rewrite He4. reflexivity.
  - rewrite length_take by exact Hlen1. lia.
  - exact Hdig.
  - rewrite length_take by exact Hlen3. lia.
  - exact Hdot.
  - exact Hend.
  - rewrite length_take by exact Hlen3. intros j Hj Hte.
    assert (Hj' : In j L1) by (apply Hsmall; lia).
    assert (Hb : In (j, [take j r3])
               (map (fun x : nat => (fst (x, @nil string),
                                     take (fst (x, @nil string)) r3
                                       :: snd (x, @nil string))) L1)).
    { apply in_map_iff. exists j. auto. }
    apply Hbefore in Hb. cbn [fst snd] in Hb.
    assert (Hnil : ends (Alt (chr ".") Eos) (prev_after p3 r3 j) (drop j r3) = []).
    { destruct (ends (Alt (chr ".") Eos) (prev_after p3 r3 j) (drop j r3));
        [reflexivity | discriminate]. }
    assert (Hsplit : drop j (take n2 r3) ++ drop n2 r3 = drop j r3).
    { clear - Hj Hlen3. revert j n2 Hj Hlen3.
      induction r3 as [|c r3 IH]; intros j n2 Hj Hlen3; [simpl in Hlen3; lia |].
      destruct n2 as [|n2]; [lia |]. destruct j as [|j]; [lia |].
      cbn [take drop]. destruct j as [|j].
      - cbn [drop]. apply take_drop.
      - apply IH; [lia | simpl in Hlen3; lia]. }
    rewrite Hsplit in Hte. apply (ends_target_end (prev_after p3 r3 j)) in Hte.
    contradiction.
Qed.







Lemma in_extract_effects (text : string) (effect : Effect) :
  In effect (_extract_effects text) ->
  exists m, In m (finditer damage_pattern (lower text)) /\
    effect = {| effect_type := "damage";
                targets := [strip (group2 (m_groups m))];
                effect_value := int_of (group1 (m_groups m)) |}.
Proof.
  unfold _extract_effects. cbv zeta.
  rewrite (CostFacts.fold_append
             (fun dt : string * string =>
                {| effect_type := "damage"; targets := [strip (snd dt)];
                   effect_value := int_of (fst dt) |})).
  cbn [app]. unfold findall. rewrite !map_map.
  intros H. apply in_map_iff in H as (m & <- & Hm). exists m. auto.
Qed.



(** a text with an effect holds the word "deals" *)
Lemma effects_need_deals (text : string) :
  _extract_effects text <> [] -> contains "deals" (lower text) = true.
Proof.
  intros H. destruct (_extract_effects text) as [|effect rest] eqn:E;
    [now contradiction H |].
  assert (Hin : In effect (_extract_effects text)) by (rewrite E; now left).
  apply in_extract_effects in Hin as (m & Hm & _).
  unfold finditer in Hm. apply in_scan in Hm as (k & e & es & _ & He & _).
  apply ends_damage_head in He as (digits & target & tail & Hrest & _).
  apply contains_spec. exists (take k (lower text)).
  exists (" " ++ digits ++ " damage to " ++ target ++ tail).
  rewrite <- (take_drop k (lower text)) at 1. rewrite Hrest. reflexivity.
Qed.

(** a scan that finds nothing: no offset has a match *)
Lemma scan_nil (r : regex) (rest : string) (prev : option ascii) (pos : nat) :
  scan r prev rest pos 0 = [] ->
  forall k, k <= length rest ->
    ends r (prev_after prev rest k) (drop k rest) = [].
Proof.
  revert prev pos. induction rest as [|c rest IH]; intros prev pos; cbn [scan];
    unfold match_here.
  - destruct (ends r prev "") eqn:E; [| discriminate].
    intros _ k Hk. simpl in Hk. assert (k = 0) by lia. now subst.
  - destruct (ends r prev (String c rest)) eqn:E; [| discriminate].
    intros H [|k] Hk; [exact E |].
    simpl in Hk. rewrite prev_after_cons by lia. apply (IH _ _ H). lia.
Qed.

Lemma flat_map_nonempty {A B : Type} (f : A -> list B) (l : list A) (x : A) :
  In x l -> f x <> [] -> flat_map f l <> [].
Proof.
  intros Hx Hf E. apply Hf.
  destruct (f x) as [|y ys] eqn:Ey; [reflexivity |]. exfalso.
  assert (Hy : In y (flat_map f l)) by (apply in_flat_map; exists x; rewrite Ey; simpl; auto).
  rewrite E in Hy. destruct Hy.
Qed.

Lemma map_nonempty {A B : Type} (g : A -> B) (l : list A) :
  l <> [] -> map g l <> [].
Proof. destruct l; [congruence | discriminate]. Qed.

(** a damage clause ahead is matched *)
Lemma ends_damage_clause (prev : option ascii) (digits target tail : string) :
  digits <> "" -> forall_chars is_digit digits = true ->
  target <> "" -> forall_chars dot target = true ->
  target_end tail ->
  ends damage_pattern prev
    ("deals " ++ digits ++ " damage to " ++ target ++ tail) <> [].
Proof.
  intros Hd1 Hd2 Ht1 Ht2 Hend.
  unfold damage_pattern. fold damage_tail. rewrite ends_cat, ends_lit, prefix_app.
  apply (flat_map_nonempty _ _ (length "deals ", [])); [now left |].
  cbn [fst snd]. apply map_nonempty.
  replace (drop (length "deals ") ("deals " ++ digits ++ " damage to " ++ target ++ tail))
    with (digits ++ " damage to " ++ target ++ tail) by reflexivity.
  generalize (prev_after prev ("deals " ++ digits ++ " damage to " ++ target ++ tail)
                (length "deals ")) as p1.
  intros p1. set (r1 := digits ++ " damage to " ++ target ++ tail).
  unfold damage_tail. rewrite ends_cat.
  apply (flat_map_nonempty _ _ (length digits, [take (length digits) r1])).
  { cbn [ends]. rewrite map_map. apply in_map_iff. exists (length digits).
    split; [reflexivity |]. apply in_down_to_one.
    split; [destruct digits; [congruence | simpl; lia] |].
    apply run_prefix. unfold r1. rewrite take_app_length, length_app.
    split; [lia | exact Hd2]. }
  cbn [fst snd]. apply map_nonempty.
  assert (Hr2 : drop (length digits) r1 = " damage to " ++ target ++ tail)
    by (unfold r1; apply drop_app_length).
  rewrite Hr2, ends_cat, ends_lit, prefix_app.
  apply (flat_map_nonempty _ _ (length " damage to ", [])); [now left |].
  cbn [fst snd]. apply map_nonempty.
  replace (drop (length " damage to ") (" damage to " ++ target ++ tail))
    with (target ++ tail) by reflexivity.
  generalize (prev_after (prev_after p1 r1 (length digits))
                (" damage to " ++ target ++ tail) (length " damage to ")) as p3.
  intros p3. rewrite ends_cat.
  apply (flat_map_nonempty _ _
           (length target, [take (length target) (target ++ tail)])).
  { cbn [ends]. rewrite map_map. apply in_map_iff. exists (length target).
    split; [reflexivity |]. rewrite <- in_rev. apply in_down_to_one.
    split; [destruct target; [congruence | simpl; lia] |].
    apply run_prefix. rewrite take_app_length, length_app. split; [lia | exact Ht2]. }
  cbn [fst snd]. apply map_nonempty. rewrite drop_app_length.
  now apply ends_target_end.
Qed.

(** X14: a text yields at least one effect exactly when its lowercase form
    holds a damage clause: "deals ", one or more digits, " damage to ", a
    non-empty target on one line, and then a period, the end of the text or
    its final newline.  A text without such a clause yields no effect. *)
Theorem effects_iff_damage_clause (text : string) :
  _extract_effects text <> [] <->
  exists before digits target tail,
    lower text = before ++ "deals " ++ digits ++ " damage to " ++ target ++ tail /\
    digits <> "" /\ forall_chars is_digit digits = true /\
    target <> "" /\ forall_chars dot target = true /\
    target_end tail.
Proof.
  split.
  - intros H. destruct (_extract_effects text) as [|effect rest] eqn:E;
      [now contradiction H |].
    assert (Hin : In effect (_extract_effects text)) by (rewrite E; now left).
    apply in_extract_effects in Hin as (m & Hm & _).
    unfold finditer in Hm. apply in_scan in Hm as (k & e & es & _ & He & _).
    apply ends_damage_head in He
      as (digits & target & tail & Hrest & _ & Hd1 & Hd2 & Ht1 & Ht2 & Hend & _).
    exists (take k (lower text)), digits, target, tail.
    split; [rewrite <- Hrest; symmetry; apply take_drop |].
    split; [intros ->; simpl in Hd1; lia |]. split; [exact Hd2 |].
    split; [intros ->; simpl in Ht1; lia |]. auto.
  - intros (before & digits & target & tail & Htext & Hd1 & Hd2 & Ht1 & Ht2 & Hend) E.
    assert (Hscan : scan damage_pattern None (lower text) 0 0 = []).
    { revert E. unfold _extract_effects. cbv zeta.
      rewrite (CostFacts.fold_append
                 (fun dt : string * string =>
                    {| effect_type := "damage"; targets := [strip (snd dt)];
                       effect_value := int_of (fst dt) |})).
      cbn [app]. unfold findall, finditer. rewrite !map_map.
      intros E. now apply map_eq_nil in E. }
    pose proof (scan_nil _ _ _ _ Hscan (length before)) as Hnil.
    rewrite Htext, drop_app_length in Hnil.
    apply (ends_damage_clause _ digits target tail Hd1 Hd2 Ht1 Ht2 Hend) in Hnil;
      [exact Hnil |].
    rewrite length_app. lia.
Qed.

End EffectFacts.

(** ** Abilities against tags *)

Module ConsistencyFacts.
Import PyStr PyStrFacts Py IR AbilityParser StrategicTagger CardIRGenerator
       TagRuleFacts EffectFacts.

(** X12: in the output record, a parsed ability with a damage effect comes
    with the tag [interaction, removal] at confidence 0.9 and with the
    flattened tags "interaction" and "removal", and the record's
    card_advantage is then -1 unless the text also has "draw" or "search". *)
Theorem damage_effects_are_removal (rt : PyRuntime) (now : string) (data : Scryfall)
  (ability : Ability) :
  let ir := convert_scryfall_to_ir rt now data in
  let text := lower (get (in_oracle_text data) "") in
  In ability (parsed_abilities ir) ->
  effects (parsed_components ability) <> [] ->
  In {| path := ["interaction"; "removal"]; confidence := 9 # 10 |}
     (hierarchical_tags (strategic_tags ir)) /\
  In "interaction" (flattened_tags (strategic_tags ir)) /\
  In "removal" (flattened_tags (strategic_tags ir)) /\
  (~ Occurs "draw" text -> ~ Occurs "search" text ->
   card_advantage (reward_hints (strategic_tags ir)) = (-1)%Z).
Proof.
  intros ir text Hin Heff.
  assert (Hdeals : contains "deals" text = true).
  { subst ir. unfold convert_scryfall_to_ir, _parse_abilities in Hin.
    cbv beta iota zeta delta [parsed_abilities] in Hin.
    destruct (String.eqb (get (in_oracle_text data) "") ""); [destruct Hin |].
    destruct Hin as [<- | []]. apply effects_need_deals. exact Heff. }
  set (card := {| cd_card_metadata := _extract_metadata data;
                  cd_parsed_abilities := _parse_abilities data |}).
  assert (Htag : In {| path := ["interaction"; "removal"]; confidence := 9 # 10 |}
                    (hierarchical_tags (strategic_tags ir))).
  { apply (substring_tag_listed rt card "interaction" "removal"
             ["deals"; "damage"; "destroy"; "exile"; "return to hand"]
             [("removal",
               Substrings ["deals"; "damage"; "destroy"; "exile"; "return to hand"]);
              ("counterspell", Substrings ["counter target"]);
              ("protection", Substrings ["prevent"; "indestructible"; "hexproof"])]).
    - unfold TAG_RULES. now left.
    - now left.
    - cbn [existsb]. change (lower (oracle_text (cd_card_metadata card))) with text.
      now rewrite Hdeals. }
  split; [exact Htag |].
  split; [| split].
  - apply (in_flattened_tags rt card). eexists. split; [exact Htag | now left].
  - apply (in_flattened_tags rt card). eexists. split; [exact Htag | right; now left].
  - intros Hd Hs. apply contains_false in Hd. apply contains_false in Hs.
    change (card_advantage (reward_hints (strategic_tags ir)))
      with (_estimate_card_advantage text).
    unfold _estimate_card_advantage. now rewrite Hd, Hs, Hdeals.
Qed.

Lemma damage_effects_are_removal_witness :
  exists ability,
    In ability (parsed_abilities
                  (convert_scryfall_to_ir Samples.runtime_a "" Samples.lightning_bolt)) /\
    effects (parsed_components ability) <> [] /\
    In "removal"
       (flattened_tags
          (strategic_tags
             (convert_scryfall_to_ir Samples.runtime_a "" Samples.lightning_bolt))).
Proof.
  eexists. split; [now left |].
  assert (H : effects (parsed_components
                (parse_ability "Lightning Bolt deals 3 damage to any target."
                   "lightning_bolt_main_effect")) <> [])
    by (vm_compute; discriminate).
  split; [exact H |].
  apply (damage_effects_are_removal Samples.runtime_a "" Samples.lightning_bolt _
           (or_introl eq_refl) H).
Defined.

End ConsistencyFacts.

(** ** Batch processing *)

Module BatchFacts.
Import PyStr PyStrFacts Batch.

Lemma endswith_spec (suffix name : string) :
  endswith suffix name = true <-> exists a, name = a ++ suffix.
Proof.
  induction name as [|c s IH]; cbn [endswith].
  - rewrite orb_false_r, String.eqb_eq. split.
    + intros <-. now exists "".
    + intros (a & H). symmetry in H. apply app_eq_nil in H as [_ H]. now symmetry.
  - rewrite orb_true_iff, String.eqb_eq, IH. split.
    + intros [<- | (a & ->)]; [now exists "" | now exists (String c a)].
    + intros ([|d a] & H); [left; exact H |].
      right. exists a. cbn [append] in H. congruence.
Qed.

Lemma endswith_app (a suffix : string) : endswith suffix (a ++ suffix) = true.
Proof. apply endswith_spec. now exists a. Qed.





Example process_batch_sample :
  process_batch
    ["sample_card_lightning_bolt.json"; "sample_card_ir_lightning_bolt.json";
     "notes.txt"; "sample_card_sol_ring.json"; "ir_sample_card_sol_ring.json";
     "sample_card_.json.bak"]
  = [("sample_card_lightning_bolt.json", "ir_sample_card_lightning_bolt.json");
     ("sample_card_sol_ring.json", "ir_sample_card_sol_ring.json")].
Proof. reflexivity. Qed.

End BatchFacts.

(** ** Gameplay flags *)

Module GameplayFacts.
Import PyStr PyStrFacts Py IR AbilityParser CardIRGenerator ParseFacts.

(** X16: enters_tapped is true exactly when the lowercased oracle text
    holds "enters tapped" or "enters the battlefield tapped";
    has_abilities_in_graveyard needs "graveyard" together with "activate"
    or a colon.  A record with either flag has a parsed ability, and when
    has_abilities_in_graveyard holds without the word "activate" that
    ability is classified "activated". *)
Theorem gameplay_flags (rt : PyRuntime) (now : string) (data : Scryfall) :
  let ir := convert_scryfall_to_ir rt now data in
  let text := lower (get (in_oracle_text data) "") in
  exists gameplay,
    gameplay_metadata ir = Some gameplay /\
    (enters_tapped gameplay = true <->
     Occurs "enters tapped" text \/ Occurs "enters the battlefield tapped" text) /\
    (has_abilities_in_graveyard gameplay = true <->
     Occurs "graveyard" text /\ (Occurs "activate" text \/ Occurs ":" text)) /\
    (enters_tapped gameplay = true \/ has_abilities_in_graveyard gameplay = true ->
     exists ability, parsed_abilities ir = [ability]) /\
    (has_abilities_in_graveyard gameplay = true -> ~ Occurs "activate" text ->
     exists ability,
       parsed_abilities ir = [ability] /\ ability_type ability = "activated").
Proof.
  intros ir text. eexists. split; [reflexivity |].
  unfold _extract_gameplay_metadata.
  cbv beta iota zeta delta [enters_tapped has_abilities_in_graveyard].
  fold text.
  assert (Hne : text <> "" -> exists ability,
            parsed_abilities ir = [ability] /\
            ability_type ability =
            _classify_ability_type (get (in_oracle_text data) "")).
  { intros Ht. subst ir. unfold convert_scryfall_to_ir, _parse_abilities.
    cbv beta iota zeta delta [parsed_abilities].
    destruct (String.eqb_spec (get (in_oracle_text data) "") "") as [E | E].
    - exfalso. apply Ht. subst text. now rewrite E.
    - eexists. split; reflexivity. }
  assert (Hocc : forall sub, sub <> "" -> contains sub text = true -> text <> "").
  { intros sub Hs Hc E. rewrite E in Hc. destruct sub; [congruence | discriminate]. }
  split; [| split; [| split]].
  - rewrite orb_true_iff, !contains_spec. reflexivity.
  - rewrite andb_true_iff, orb_true_iff, !contains_spec. reflexivity.
  - intros [H | H].
    + apply orb_true_iff in H as [H | H];
        (destruct Hne as (a & Ha & _);
         [eapply Hocc; [| exact H]; discriminate | eauto]).
    + apply andb_true_iff in H as [H _].
      destruct Hne as (a & Ha & _);
        [eapply Hocc; [| exact H]; discriminate | eauto].
  - intros H Hact. apply andb_true_iff in H as [Hg H].
    apply contains_false in Hact. rewrite Hact in H. cbn [orb] in H.
    destruct Hne as (a & Ha & Hty);
      [eapply Hocc; [| exact Hg]; discriminate |].
    exists a. split; [exact Ha |]. rewrite Hty.
    unfold text in H. rewrite contains_colon_lower in H.
    unfold _classify_ability_type. now rewrite H.
Qed.

End GameplayFacts.
